(** * LinuxUPC: transports, background receiver and session controller

    A shallow embedding of [src/communication/*.py] and of the
    [CommunicationWorker] / [MainWindow] connection logic of
    [src/main_app.py], followed by the properties established about them.

    Python objects are records, methods are computations in a small
    state-and-exception monad (Python keeps every mutation made before an
    exception is raised, so the state is threaded through failures too), and
    the host libraries (pyserial, python-can, smbus) are an interface [Env]
    whose calls are recorded, together with their outcome, in a trace. *)

From Stdlib Require Import String Ascii ZArith NArith List Bool Lia QArith.
From Stdlib Require Import DecimalString HexadecimalString.
From Stdlib Require Import Strings.Byte.
Import ListNotations.
Close Scope Q_scope.

Set Implicit Arguments.
Generalizable All Variables.

(* ===================================================================== *)
(** ** Python values *)
(* ===================================================================== *)

Module Py.

(** A Python [str] is a sequence of Unicode code points. *)
Definition pystr := list N.

(** A string literal of the source (ASCII only). *)
Definition lit (s : string) : pystr := map N_of_ascii (list_ascii_of_string s).

(** [bytes] objects. *)
Definition bytes := list byte.

(** [str(n)] for an [int]. *)
Definition str_of_int (z : Z) : pystr :=
  lit (DecimalString.NilZero.string_of_int (Z.to_int z)).

(** [hex(n)] for an [int]. *)
Definition hex (z : Z) : pystr :=
  ((if z <? 0 then lit "-0x" else lit "0x")
     ++ lit (HexadecimalString.NilZero.string_of_uint (N.to_hex_uint (Z.abs_N z))))%Z.

(** *** The UTF-8 codec ([str.encode('utf-8')], [bytes.decode('utf-8', errors='ignore')]) *)

Definition b8 (n : N) : byte :=
  match Byte.of_N (n mod 256) with Some b => b | None => x00 end.

Definition is_surrogate (c : N) : bool := ((0xD800 <=? c) && (c <=? 0xDFFF))%N.

(** One code point; [None] is [UnicodeEncodeError] (a lone surrogate).
    Code points above U+10FFFF do not occur in a [str]. *)
Definition utf8_encode_cp (c : N) : option bytes :=
  (if c <? 0x80 then Some [b8 c]
   else if c <? 0x800 then
     Some [b8 (N.lor 0xC0 (N.shiftr c 6)); b8 (N.lor 0x80 (N.land c 0x3F))]
   else if c <? 0x10000 then
     if is_surrogate c then None
     else Some [b8 (N.lor 0xE0 (N.shiftr c 12));
                b8 (N.lor 0x80 (N.land (N.shiftr c 6) 0x3F));
                b8 (N.lor 0x80 (N.land c 0x3F))]
   else if c <=? 0x10FFFF then
     Some [b8 (N.lor 0xF0 (N.shiftr c 18));
           b8 (N.lor 0x80 (N.land (N.shiftr c 12) 0x3F));
           b8 (N.lor 0x80 (N.land (N.shiftr c 6) 0x3F));
           b8 (N.lor 0x80 (N.land c 0x3F))]
   else None)%N.

Fixpoint utf8_encode (s : pystr) : option bytes :=
  match s with
  | [] => Some []
  | c :: s' =>
      match utf8_encode_cp c, utf8_encode s' with
      | Some bs, Some rest => Some (bs ++ rest)
      | _, _ => None
      end
  end.

Definition is_cont (b : N) : bool := ((0x80 <=? b) && (b <? 0xC0))%N.
Definition low6 (b : N) : N := N.land b 0x3F.

(** Second byte of a three-byte sequence: E0 needs A0..BF, ED needs 80..9F. *)
Definition ok2_of3 (b1 b2 : N) : bool :=
  (is_cont b2 && negb (if b2 <? 0xA0 then b1 =? 0xE0 else b1 =? 0xED))%N.

(** Second byte of a four-byte sequence: F0 needs 90..BF, F4 needs 80..8F. *)
Definition ok2_of4 (b1 b2 : N) : bool :=
  (is_cont b2 && negb (if b2 <? 0x90 then b1 =? 0xF0 else b1 =? 0xF4))%N.

(** The decoder with [errors='ignore']: an invalid start byte is dropped,
    an invalid continuation drops the bytes read so far of that sequence,
    and a sequence cut short by the end of the data is dropped whole. *)
Fixpoint utf8_decode_ignore (bs : bytes) : pystr :=
  match bs with
  | [] => []
  | c1 :: r1 =>
      let b1 := Byte.to_N c1 in
      if (b1 <? 0x80)%N then b1 :: utf8_decode_ignore r1
      else if (b1 <? 0xC2)%N then utf8_decode_ignore r1
      else if (b1 <? 0xE0)%N then
        match r1 with
        | [] => []
        | c2 :: r2 =>
            let b2 := Byte.to_N c2 in
            if is_cont b2
            then (N.shiftl (N.land b1 0x1F) 6 + low6 b2)%N :: utf8_decode_ignore r2
            else utf8_decode_ignore r1
        end
      else if (b1 <? 0xF0)%N then
        match r1 with
        | [] => []
        | c2 :: r2 =>
            let b2 := Byte.to_N c2 in
            if negb (ok2_of3 b1 b2) then utf8_decode_ignore r1
            else
              match r2 with
              | [] => []
              | c3 :: r3 =>
                  let b3 := Byte.to_N c3 in
                  if is_cont b3
                  then (N.shiftl (N.land b1 0x0F) 12 + N.shiftl (low6 b2) 6 + low6 b3)%N
                         :: utf8_decode_ignore r3
                  else utf8_decode_ignore r2
              end
        end
      else if (b1 <? 0xF5)%N then
        match r1 with
        | [] => []
        | c2 :: r2 =>
            let b2 := Byte.to_N c2 in
            if negb (ok2_of4 b1 b2) then utf8_decode_ignore r1
            else
              match r2 with
              | [] => []
              | c3 :: r3 =>
                  let b3 := Byte.to_N c3 in
                  if negb (is_cont b3) then utf8_decode_ignore r2
                  else
                    match r3 with
                    | [] => []
                    | c4 :: r4 =>
                        let b4 := Byte.to_N c4 in
                        if is_cont b4
                        then (N.shiftl (N.land b1 0x07) 18 + N.shiftl (low6 b2) 12
                              + N.shiftl (low6 b3) 6 + low6 b4)%N
                               :: utf8_decode_ignore r4
                        else utf8_decode_ignore r3
                    end
              end
        end
      else utf8_decode_ignore r1
  end.

(** *** [str.strip()] *)

(** [str.isspace] on one code point. *)
Definition isspace (c : N) : bool :=
  (((0x09 <=? c) && (c <=? 0x0D)) || ((0x1C <=? c) && (c <=? 0x20))
   || (c =? 0x85) || (c =? 0xA0) || (c =? 0x1680)
   || ((0x2000 <=? c) && (c <=? 0x200A))
   || (c =? 0x2028) || (c =? 0x2029) || (c =? 0x202F) || (c =? 0x205F)
   || (c =? 0x3000))%N.

Fixpoint lstrip (s : pystr) : pystr :=
  match s with
  | [] => []
  | c :: s' => if isspace c then lstrip s' else s
  end.

Definition rstrip (s : pystr) : pystr := rev (lstrip (rev s)).

Definition strip (s : pystr) : pystr := rstrip (lstrip s).

(** *** Exceptions *)

(** The exception classes that the transports raise, catch or may receive
    from the host libraries. [IOError] is Python's alias of [OSError]. *)
Inductive exc_class :=
| Exception | OSError | ConnectionError | TimeoutError | FileNotFoundError
| SerialException | SerialTimeoutException | CanError
| TypeError | ValueError | UnicodeEncodeError | AttributeError.

Definition IOError := OSError.

Definition exc_class_eqb (a b : exc_class) : bool :=
  match a, b with
  | Exception, Exception | OSError, OSError | ConnectionError, ConnectionError
  | TimeoutError, TimeoutError | FileNotFoundError, FileNotFoundError
  | SerialException, SerialException
  | SerialTimeoutException, SerialTimeoutException | CanError, CanError
  | TypeError, TypeError | ValueError, ValueError
  | UnicodeEncodeError, UnicodeEncodeError
  | AttributeError, AttributeError => true
  | _, _ => false
  end.

(** The class itself followed by its base classes. *)
Definition mro (c : exc_class) : list exc_class :=
  match c with
  | Exception => [Exception]
  | OSError => [OSError; Exception]
  | ConnectionError => [ConnectionError; OSError; Exception]
  | TimeoutError => [TimeoutError; OSError; Exception]
  | FileNotFoundError => [FileNotFoundError; OSError; Exception]
  | SerialException => [SerialException; OSError; Exception]
  | SerialTimeoutException =>
      [SerialTimeoutException; SerialException; OSError; Exception]
  | CanError => [CanError; Exception]
  | TypeError => [TypeError; Exception]
  | ValueError => [ValueError; Exception]
  | UnicodeEncodeError => [UnicodeEncodeError; ValueError; Exception]
  | AttributeError => [AttributeError; Exception]
  end.

Definition issubclass (c k : exc_class) : bool := existsb (exc_class_eqb k) (mro c).

(** An exception object: its class and [str(e)]. *)
Record exc := mkExc { exc_cls : exc_class; exc_msg : pystr }.

Definition isinstance (e : exc) (k : exc_class) : bool := issubclass (exc_cls e) k.

(** *** Values returned by [receive_data] *)

Inductive pyval :=
| VNone
| VStr (s : pystr)
| VList (l : list Z).

(** Truth value in a condition ([if data:]). *)
Definition truthy (v : pyval) : bool :=
  match v with
  | VNone => false
  | VStr s => negb (Nat.eqb (length s) 0)
  | VList l => negb (Nat.eqb (length l) 0)
  end.

Fixpoint join_ints (l : list Z) : pystr :=
  match l with
  | [] => []
  | [z] => str_of_int z
  | z :: l' => str_of_int z ++ lit ", " ++ join_ints l'
  end.

(** [str(v)]. *)
Definition str (v : pyval) : pystr :=
  match v with
  | VNone => lit "None"
  | VStr s => s
  | VList l => lit "[" ++ join_ints l ++ lit "]"
  end.

End Py.
Import Py.

Arguments lit : simpl never.
Arguments str_of_int : simpl never.
Arguments hex : simpl never.
Arguments utf8_encode : simpl never.
Arguments utf8_decode_ignore : simpl never.
Arguments strip : simpl never.

(* ===================================================================== *)
(** ** Computations: state and exceptions *)
(* ===================================================================== *)

Inductive result (A : Type) : Type :=
| Ok (a : A)
| Raise (e : exc).
Arguments Ok {A} a.
Arguments Raise {A} e.

(** A computation over a state [St]; the state reached is returned on
    failure as well. *)
Definition M (St A : Type) : Type := St -> result A * St.

Definition ret {St A} (a : A) : M St A := fun s => (Ok a, s).

Definition bind {St A B} (m : M St A) (k : A -> M St B) : M St B :=
  fun s => match m s with
           | (Ok a, s') => k a s'
           | (Raise e, s') => (Raise e, s')
           end.

Definition raise {St A} (c : exc_class) (msg : pystr) : M St A :=
  fun s => (Raise (mkExc c msg), s).

Definition get {St} : M St St := fun s => (Ok s, s).

Definition modify {St} (f : St -> St) : M St unit := fun s => (Ok tt, f s).

(** [try: body except (k1, k2, ...) as e: handler e]. *)
Definition try_except {St A} (body : M St A) (ks : list exc_class)
           (handler : exc -> M St A) : M St A :=
  fun s => match body s with
           | (Ok a, s') => (Ok a, s')
           | (Raise e, s') =>
               if existsb (isinstance e) ks then handler e s' else (Raise e, s')
           end.

Declare Scope py_scope.
Delimit Scope py_scope with py.
Notation "x <- m ;; k" := (bind m (fun x => k))
  (at level 61, m at next level, right associativity) : py_scope.
Notation "m ;; k" := (bind m (fun _ => k))
  (at level 61, right associativity) : py_scope.
Open Scope py_scope.

(* ===================================================================== *)
(** ** The host libraries *)
(* ===================================================================== *)

(** An open library object ([serial.Serial], [can.Bus], [smbus.SMBus]). *)
Definition handle := nat.

(** [can.Message]. *)
Record can_message := mkMessage {
  arbitration_id : Z;
  data : bytes;
  is_extended_id : bool
}.

(** The calls the transports make on pyserial, python-can and smbus, indexed
    by the type of what they return. *)
Inductive lib_call : Type -> Type :=
| serial_Serial (port : pystr) (baudrate : Z) (timeout : Q) : lib_call handle
| serial_close (h : handle) : lib_call unit
| serial_write (h : handle) (bs : bytes) : lib_call Z
| serial_flush (h : handle) : lib_call unit
| serial_read (h : handle) (size : Z) : lib_call bytes
| serial_readline (h : handle) : lib_call bytes
| can_Bus (interface channel : pystr) (bitrate : Z) : lib_call handle
| can_shutdown (h : handle) : lib_call unit
| can_send (h : handle) (msg : can_message) : lib_call unit
| can_recv (h : handle) (timeout : Q) : lib_call (option can_message)
| smbus_SMBus (bus_number : Z) : lib_call handle
| smbus_close (h : handle) : lib_call unit
| smbus_read_byte (h : handle) (addr : Z) : lib_call Z
| smbus_write_byte (h : handle) (addr value : Z) : lib_call unit
| smbus_write_i2c_block_data (h : handle) (addr register : Z) (vals : list Z)
  : lib_call unit
| smbus_read_i2c_block_data (h : handle) (addr register len : Z)
  : lib_call (list Z).

(** One library call with its outcome. *)
Inductive event : Type :=
| Ev {X : Type} (c : lib_call X) (r : result X).

(** The devices and the operating system behind the libraries: any state
    type and any way of answering a call, exceptions included. *)
Class Env : Type := {
  dev : Type;
  respond : forall X : Type, lib_call X -> dev -> result X * dev
}.

Section World.
Context {E : Env}.

Record world : Type := mkWorld {
  device : dev;
  trace : list event
}.

(** Perform a library call: the device answers and the call is logged. *)
Definition perform {X} (c : lib_call X) (w : world) : result X * world :=
  let (r, d') := respond c (device w) in
  (r, {| device := d'; trace := trace w ++ [Ev c r] |}).

(** A method body runs on the receiver object and the world. *)
Definition method (O A : Type) : Type := M (O * world) A.

Definition self {O} : method O O := fun s => (Ok (fst s), s).

Definition setattr {O} (f : O -> O) : method O unit :=
  fun s => (Ok tt, (f (fst s), snd s)).

Definition call {O X} (c : lib_call X) : method O X :=
  fun s => let (r, w') := perform c (snd s) in (r, (fst s, w')).

(** [data.encode('utf-8')]. The text of the codec's error message is
    abbreviated. *)
Definition encode_utf8 {O} (data : pystr) : method O bytes :=
  match utf8_encode data with
  | Some bs => ret bs
  | None => raise UnicodeEncodeError
                  (lit "'utf-8' codec can't encode character: surrogates not allowed")
  end.

(** Attribute access on [None]. *)
Definition none_has_no {O A} (attr : string) : method O A :=
  raise AttributeError (lit "'NoneType' object has no attribute '" ++ lit attr ++ lit "'").

End World.

(** Which events are a successful open of an OS resource, and which are a
    call that writes payload bytes. *)
Definition is_open_event (e : event) : bool :=
  match e with
  | Ev c r =>
      match c in lib_call X return result X -> bool with
      | serial_Serial _ _ _ | can_Bus _ _ _ | smbus_SMBus _ =>
          fun r => match r with Ok _ => true | Raise _ => false end
      | _ => fun _ => false
      end r
  end.

Definition is_open_attempt (e : event) : bool :=
  match e with
  | Ev c _ =>
      match c with
      | serial_Serial _ _ _ | can_Bus _ _ _ | smbus_SMBus _ => true
      | _ => false
      end
  end.

Definition is_write_call (e : event) : bool :=
  match e with
  | Ev c _ =>
      match c with
      | serial_write _ _ | can_send _ _ | smbus_write_byte _ _ _
      | smbus_write_i2c_block_data _ _ _ _ => true
      | _ => false
      end
  end.

(* ===================================================================== *)
(** ** communication/uart_comm.py *)
(* ===================================================================== *)

(** A [serial.Serial] object held by a transport: its OS handle and its
    [is_open] attribute. A [serial.Serial(port, ...)] that returns has opened
    the port. *)
Record serial_obj := mkSerial { fd : handle; is_open : bool }.

(** [self.serial_conn and self.serial_conn.is_open]: [None] when there is no
    object, otherwise the object's [is_open] (a [Serial] object is truthy). *)
Definition conn_and_is_open (conn : option serial_obj) : option bool :=
  match conn with
  | None => None
  | Some s => Some (is_open s)
  end.

(** Truth value of [None], [False], [True]. *)
Definition cond (v : option bool) : bool :=
  match v with
  | Some b => b
  | None => false
  end.

Module UARTCommunication.
Section WithEnv.
Context {E : Env}.

Record t := mk {
  port : pystr;
  baudrate : Z;
  timeout : Q;
  serial_conn : option serial_obj
}.

Definition set_serial_conn (c : option serial_obj) (o : t) : t :=
  {| port := port o; baudrate := baudrate o; timeout := timeout o;
     serial_conn := c |}.

(** [__init__(self, port, baudrate, timeout=1)] *)
Definition init (port : pystr) (baudrate : Z) (timeout : Q) : t :=
  {| port := port; baudrate := baudrate; timeout := timeout;
     serial_conn := None |}.

Definition connect : method t unit :=
  o <- self ;;
  if cond (conn_and_is_open (serial_conn o)) then ret tt
  else
    try_except
      (h <- call (serial_Serial (port o) (baudrate o) (timeout o)) ;;
       setattr (set_serial_conn (Some (mkSerial h true))))
      [SerialException]
      (fun e => raise ConnectionError
                      (lit "Failed to open port " ++ port o ++ lit ": " ++ exc_msg e)).

Definition disconnect : method t unit :=
  o <- self ;;
  if cond (conn_and_is_open (serial_conn o)) then
    match serial_conn o with
    | Some s => call (serial_close (fd s)) ;; setattr (set_serial_conn None)
    | None => none_has_no "close"
    end
  else ret tt.

Definition is_connected (o : t) : option bool :=
  conn_and_is_open (serial_conn o).

Definition send_data (data : pystr) : method t unit :=
  o <- self ;;
  if negb (cond (is_connected o)) then
    raise ConnectionError (lit "UART not connected.")
  else
    try_except
      (bs <- encode_utf8 data ;;
       match serial_conn o with
       | Some s => _ <- call (serial_write (fd s) bs) ;; ret tt
       | None => none_has_no "write"
       end)
      [SerialTimeoutException]
      (fun e => raise TimeoutError (lit "UART send timeout: " ++ exc_msg e)).

(** [receive_data(self, num_bytes=None)]; [if num_bytes:] is false for
    [None] and for [0]. *)
Definition receive_data (num_bytes : option Z) : method t pyval :=
  o <- self ;;
  if negb (cond (is_connected o)) then
    raise ConnectionError (lit "UART not connected.")
  else
    received_data <-
      match serial_conn o with
      | Some s =>
          match num_bytes with
          | Some n => if (n =? 0)%Z then call (serial_readline (fd s))
                      else call (serial_read (fd s) n)
          | None => call (serial_readline (fd s))
          end
      | None => none_has_no "readline"
      end ;;
    ret (VStr (strip (utf8_decode_ignore received_data))).

End WithEnv.
End UARTCommunication.

(* ===================================================================== *)
(** ** communication/rs485_comm.py *)
(* ===================================================================== *)

Module RS485Communication.
Section WithEnv.
Context {E : Env}.

Record t := mk {
  port : pystr;
  baudrate : Z;
  timeout : Q;
  serial_conn : option serial_obj
}.

Definition set_serial_conn (c : option serial_obj) (o : t) : t :=
  {| port := port o; baudrate := baudrate o; timeout := timeout o;
     serial_conn := c |}.

(** [__init__(self, port, baudrate, timeout=1)] *)
Definition init (port : pystr) (baudrate : Z) (timeout : Q) : t :=
  {| port := port; baudrate := baudrate; timeout := timeout;
     serial_conn := None |}.

Definition connect : method t unit :=
  o <- self ;;
  if cond (conn_and_is_open (serial_conn o)) then ret tt
  else
    try_except
      (h <- call (serial_Serial (port o) (baudrate o) (timeout o)) ;;
       setattr (set_serial_conn (Some (mkSerial h true))))
      [SerialException]
      (fun e => raise ConnectionError
                      (lit "Failed to open RS485 port " ++ port o ++ lit ": "
                           ++ exc_msg e)).

Definition disconnect : method t unit :=
  o <- self ;;
  if cond (conn_and_is_open (serial_conn o)) then
    match serial_conn o with
    | Some s => call (serial_close (fd s)) ;; setattr (set_serial_conn None)
    | None => none_has_no "close"
    end
  else ret tt.

Definition is_connected (o : t) : option bool :=
  conn_and_is_open (serial_conn o).

Definition send_data (data : pystr) : method t unit :=
  o <- self ;;
  if negb (cond (is_connected o)) then
    raise ConnectionError (lit "RS485 not connected.")
  else
    try_except
      (bs <- encode_utf8 data ;;
       match serial_conn o with
       | Some s =>
           _ <- call (serial_write (fd s) bs) ;;
           call (serial_flush (fd s))
       | None => none_has_no "write"
       end)
      [SerialTimeoutException]
      (fun e => raise TimeoutError (lit "RS485 send timeout: " ++ exc_msg e)).

Definition receive_data : method t pyval :=
  o <- self ;;
  if negb (cond (is_connected o)) then
    raise ConnectionError (lit "RS485 not connected.")
  else
    received_data <-
      match serial_conn o with
      | Some s => call (serial_readline (fd s))
      | None => none_has_no "readline"
      end ;;
    ret (VStr (strip (utf8_decode_ignore received_data))).

End WithEnv.
End RS485Communication.

(* ===================================================================== *)
(** ** communication/can_comm.py *)
(* ===================================================================== *)

Module CANCommunication.
Section WithEnv.
Context {E : Env}.

Record t := mk {
  channel : pystr;
  bitrate : Z;
  interface : pystr;
  bus : option handle
}.

Definition set_bus (b : option handle) (o : t) : t :=
  {| channel := channel o; bitrate := bitrate o; interface := interface o;
     bus := b |}.

(** [__init__(self, channel, bitrate=500000, interface='socketcan')] *)
Definition init (channel : pystr) (bitrate : Z) (interface : pystr) : t :=
  {| channel := channel; bitrate := bitrate; interface := interface;
     bus := None |}.

(** A [can.Bus] object is truthy, so [if self.bus:] tests for [None]. *)
Definition connect : method t unit :=
  o <- self ;;
  match bus o with
  | Some _ => ret tt
  | None =>
      try_except
        (h <- call (can_Bus (interface o) (channel o) (bitrate o)) ;;
         setattr (set_bus (Some h)))
        [Exception]
        (fun e => raise ConnectionError
                        (lit "Failed to initialize CAN bus on " ++ channel o
                             ++ lit ": " ++ exc_msg e))
  end.

Definition disconnect : method t unit :=
  o <- self ;;
  match bus o with
  | Some h => call (can_shutdown h) ;; setattr (set_bus None)
  | None => ret tt
  end.

Definition is_connected (o : t) : bool :=
  match bus o with
  | Some _ => true
  | None => false
  end.

(** [send_data(self, data, arbitration_id=0x123)] *)
Definition send_data (data : pystr) (arbitration_id : Z) : method t unit :=
  o <- self ;;
  if negb (is_connected o) then
    raise ConnectionError (lit "CAN bus not connected.")
  else
    try_except
      (bs <- encode_utf8 data ;;
       let message := mkMessage arbitration_id bs false in
       match bus o with
       | Some h => call (can_send h message)
       | None => none_has_no "send"
       end)
      [CanError]
      (fun e => raise IOError (lit "Error sending CAN message: " ++ exc_msg e)).

(** [receive_data(self, timeout=1.0)]; a [can.Message] is truthy, so
    [if message:] tests for [None]. *)
Definition receive_data (timeout : Q) : method t pyval :=
  o <- self ;;
  if negb (is_connected o) then
    raise ConnectionError (lit "CAN bus not connected.")
  else
    message <-
      match bus o with
      | Some h => call (can_recv h timeout)
      | None => none_has_no "recv"
      end ;;
    match message with
    | Some m => ret (VStr (utf8_decode_ignore (data m)))
    | None => ret VNone
    end.

End WithEnv.
End CANCommunication.

(* ===================================================================== *)
(** ** communication/i2c_comm.py *)
(* ===================================================================== *)

(** The [data] argument of [I2CCommunication.send_data]: a [str], a [list]
    of integers, or a value of another type. *)
Inductive i2c_data :=
| DStr (s : pystr)
| DList (l : list Z)
| DOther.

Module I2CCommunication.
Section WithEnv.
Context {E : Env}.

Record t := mk {
  bus_number : Z;
  device_address : Z;
  bus : option handle;
  _connected : bool
}.

Definition set_bus (b : option handle) (o : t) : t :=
  {| bus_number := bus_number o; device_address := device_address o;
     bus := b; _connected := _connected o |}.

Definition set_connected (c : bool) (o : t) : t :=
  {| bus_number := bus_number o; device_address := device_address o;
     bus := bus o; _connected := c |}.

(** [__init__(self, bus_number, device_address)] *)
Definition init (bus_number device_address : Z) : t :=
  {| bus_number := bus_number; device_address := device_address;
     bus := None; _connected := false |}.

(** [self.bus.<attr>] *)
Definition the_bus (attr : string) : method t handle :=
  o <- self ;;
  match bus o with
  | Some h => ret h
  | None => none_has_no attr
  end.

(** An [SMBus] object is truthy, so [if self.bus:] tests for [None]. *)
Definition connect : method t unit :=
  o <- self ;;
  match bus o with
  | Some _ => ret tt
  | None =>
      try_except
        (h <- call (smbus_SMBus (bus_number o)) ;;
         setattr (set_bus (Some h)) ;;
         b <- the_bus "read_byte" ;;
         _ <- call (smbus_read_byte b (device_address o)) ;;
         setattr (set_connected true))
        [FileNotFoundError; IOError]
        (fun e =>
           setattr (set_connected false) ;;
           raise ConnectionError
                 (lit "Failed to open I2C bus " ++ str_of_int (bus_number o)
                      ++ lit " or find device at address "
                      ++ hex (device_address o) ++ lit ": " ++ exc_msg e))
  end.

Definition disconnect : method t unit :=
  o <- self ;;
  match bus o with
  | Some h => call (smbus_close h) ;; setattr (set_bus None)
  | None => ret tt
  end ;;
  setattr (set_connected false).

Definition is_connected (o : t) : bool := _connected o.

(** [ord(c) for c in data]. *)
Definition ords (s : pystr) : list Z := map Z.of_N s.

(** [send_data(self, data, register=None)] *)
Definition send_data (data : i2c_data) (register : option Z) : method t unit :=
  o <- self ;;
  if negb (is_connected o) then
    raise ConnectionError (lit "I2C not connected.")
  else
    data_bytes <-
      match data with
      | DStr s => ret (ords s)
      | DList l => ret l
      | DOther => raise TypeError (lit "Data must be a string or a list of integers.")
      end ;;
    try_except
      (match register with
       | Some r =>
           b <- the_bus "write_i2c_block_data" ;;
           call (smbus_write_i2c_block_data b (device_address o) r data_bytes)
       | None =>
           match data_bytes with
           | first :: _ =>
               b <- the_bus "write_byte" ;;
               call (smbus_write_byte b (device_address o) first)
           | [] => ret tt
           end
       end)
      [IOError]
      (fun e => raise IOError (lit "I2C write failed: " ++ exc_msg e)).

(** [[self.bus.read_byte(self.device_address) for _ in range(n)]]. *)
Fixpoint read_bytes (n : nat) : method t (list Z) :=
  match n with
  | O => ret []
  | S n' =>
      o <- self ;;
      b <- the_bus "read_byte" ;;
      v <- call (smbus_read_byte b (device_address o)) ;;
      rest <- read_bytes n' ;;
      ret (v :: rest)
  end.

(** [receive_data(self, num_bytes=1, register=None)] *)
Definition receive_data (num_bytes : Z) (register : option Z) : method t pyval :=
  o <- self ;;
  if negb (is_connected o) then
    raise ConnectionError (lit "I2C not connected.")
  else
    try_except
      (match register with
       | Some r =>
           b <- the_bus "read_i2c_block_data" ;;
           l <- call (smbus_read_i2c_block_data b (device_address o) r num_bytes) ;;
           ret (VList l)
       | None =>
           l <- read_bytes (Z.to_nat num_bytes) ;;
           ret (VList l)
       end)
      [IOError]
      (fun e => raise IOError (lit "I2C read failed: " ++ exc_msg e)).

End WithEnv.
End I2CCommunication.

(* ===================================================================== *)
(** ** main_app.py *)
(* ===================================================================== *)

(** The object bound to [comm_instance]: one of the four transport classes,
    called through the methods they share. *)
Inductive transport :=
| UART (o : UARTCommunication.t)
| RS485 (o : RS485Communication.t)
| CAN (o : CANCommunication.t)
| I2C (o : I2CCommunication.t).

Section Dispatch.
Context {E : Env}.

(** Run a method of class [O] on the object inside a [transport]. *)
Definition on {O A} (inj : O -> transport) (o : O) (m : method O A)
  : method transport A :=
  fun s => match m (o, snd s) with
           | (r, (o', w')) => (r, (inj o', w'))
           end.

(** [comm.connect()] *)
Definition comm_connect : method transport unit :=
  fun s => match fst s with
           | UART o => on UART o UARTCommunication.connect s
           | RS485 o => on RS485 o RS485Communication.connect s
           | CAN o => on CAN o CANCommunication.connect s
           | I2C o => on I2C o I2CCommunication.connect s
           end.

(** [comm.disconnect()] *)
Definition comm_disconnect : method transport unit :=
  fun s => match fst s with
           | UART o => on UART o UARTCommunication.disconnect s
           | RS485 o => on RS485 o RS485Communication.disconnect s
           | CAN o => on CAN o CANCommunication.disconnect s
           | I2C o => on I2C o I2CCommunication.disconnect s
           end.

(** The truth value of [comm.is_connected()]. *)
Definition comm_is_connected (c : transport) : bool :=
  match c with
  | UART o => cond (UARTCommunication.is_connected o)
  | RS485 o => cond (RS485Communication.is_connected o)
  | CAN o => CANCommunication.is_connected o
  | I2C o => I2CCommunication.is_connected o
  end.

(** [comm.send_data(command)] with a [str]; the other parameters take
    their defaults ([arbitration_id=0x123], [register=None]). *)
Definition comm_send_data (command : pystr) : method transport unit :=
  fun s => match fst s with
           | UART o => on UART o (UARTCommunication.send_data command) s
           | RS485 o => on RS485 o (RS485Communication.send_data command) s
           | CAN o => on CAN o (CANCommunication.send_data command 0x123) s
           | I2C o => on I2C o (I2CCommunication.send_data (DStr command) None) s
           end.

(** [comm.receive_data()]: every parameter takes its default
    ([num_bytes=None]; [timeout=1.0]; [num_bytes=1, register=None]). *)
Definition comm_receive_data : method transport pyval :=
  fun s => match fst s with
           | UART o => on UART o (UARTCommunication.receive_data None) s
           | RS485 o => on RS485 o RS485Communication.receive_data s
           | CAN o => on CAN o (CANCommunication.receive_data 1) s
           | I2C o => on I2C o (I2CCommunication.receive_data 1 None) s
           end.

(** Whether the object holds an open OS resource: an open [Serial], a
    [can.Bus] or an [SMBus]. *)
Definition holds_handle (c : transport) : bool :=
  match c with
  | UART o => cond (conn_and_is_open (UARTCommunication.serial_conn o))
  | RS485 o => cond (conn_and_is_open (RS485Communication.serial_conn o))
  | CAN o => match CANCommunication.bus o with Some _ => true | None => false end
  | I2C o => match I2CCommunication.bus o with Some _ => true | None => false end
  end.

End Dispatch.

(** Where [CommunicationWorker.run] stands. *)
Inductive run_pc :=
| PStart                 (* the thread is started, [run] has not begun *)
| PTest                  (* [while self._is_running:] *)
| PReceive               (* [data = self.comm.receive_data()] *)
| PEmit (data : pyval)   (* [if data: self.data_received.emit(str(data))] *)
| PSleep                 (* [QThread.msleep(50)] *)
| PDone.                 (* [run] has returned *)

(** The two signals of a worker; both are connected to slots of the main
    window and are delivered through the main thread's event queue. *)
Inductive signal :=
| data_received (text : pystr)
| error_occurred (text : pystr).

(** A [CommunicationWorker] together with the [QThread] it was moved to. *)
Record receiver := mkReceiver {
  comm : nat;               (* address of the transport object *)
  _is_running : bool;       (* class attribute [True] until assigned *)
  pc : run_pc;
  quit_requested : bool     (* [QThread.quit()] was called *)
}.

Inductive protocol := P_UART | P_RS485 | P_CAN | P_I2C.

Definition protocol_text (p : protocol) : pystr :=
  match p with
  | P_UART => lit "UART"
  | P_RS485 => lit "RS485"
  | P_CAN => lit "CAN"
  | P_I2C => lit "I2C"
  end.

(** The connection form as [connect_device] reads it. A numeric field holds
    the outcome of [int(...)] on its text: a number, or the [ValueError]. *)
Record form := mkForm {
  protocol_combo : protocol;
  port_input : pystr;
  baud_input : result Z;       (* [int(self.baud_input.text())] *)
  channel_input : pystr;
  bus_input : result Z;        (* [int(self.bus_input.text())] *)
  addr_input : result Z        (* [int(self.addr_input.text(), 16)] *)
}.

Section App.
Context {E : Env}.

(** The program state: the objects (by address), the devices, the queue of
    signals awaiting delivery, and the attributes of [MainWindow]. *)
Record app := mkApp {
  heap : nat -> transport;
  next_obj : nat;
  receivers : nat -> receiver;
  next_receiver : nat;
  wld : world;
  queue : list signal;
  comm_instance : option nat;
  worker_thread : option nat;
  comm_worker : option nat;
  log_display : list pystr;
  ui_connected : bool;            (* button reads "Disconnect", sending enabled *)
  dialogs : list (pystr * pystr)  (* message boxes shown: title, text *)
}.

Definition upd {A} (f : nat -> A) (i : nat) (x : A) : nat -> A :=
  fun j => if Nat.eqb j i then x else f j.

Definition set_heap h (a : app) : app :=
  mkApp h (next_obj a) (receivers a) (next_receiver a) (wld a) (queue a)
        (comm_instance a) (worker_thread a) (comm_worker a) (log_display a)
        (ui_connected a) (dialogs a).
Definition set_next_obj n (a : app) : app :=
  mkApp (heap a) n (receivers a) (next_receiver a) (wld a) (queue a)
        (comm_instance a) (worker_thread a) (comm_worker a) (log_display a)
        (ui_connected a) (dialogs a).
Definition set_receivers r (a : app) : app :=
  mkApp (heap a) (next_obj a) r (next_receiver a) (wld a) (queue a)
        (comm_instance a) (worker_thread a) (comm_worker a) (log_display a)
        (ui_connected a) (dialogs a).
Definition set_next_receiver n (a : app) : app :=
  mkApp (heap a) (next_obj a) (receivers a) n (wld a) (queue a)
        (comm_instance a) (worker_thread a) (comm_worker a) (log_display a)
        (ui_connected a) (dialogs a).
Definition set_wld w (a : app) : app :=
  mkApp (heap a) (next_obj a) (receivers a) (next_receiver a) w (queue a)
        (comm_instance a) (worker_thread a) (comm_worker a) (log_display a)
        (ui_connected a) (dialogs a).
Definition set_queue q (a : app) : app :=
  mkApp (heap a) (next_obj a) (receivers a) (next_receiver a) (wld a) q
        (comm_instance a) (worker_thread a) (comm_worker a) (log_display a)
        (ui_connected a) (dialogs a).
Definition set_comm_instance c (a : app) : app :=
  mkApp (heap a) (next_obj a) (receivers a) (next_receiver a) (wld a) (queue a)
        c (worker_thread a) (comm_worker a) (log_display a)
        (ui_connected a) (dialogs a).
Definition set_worker_thread t (a : app) : app :=
  mkApp (heap a) (next_obj a) (receivers a) (next_receiver a) (wld a) (queue a)
        (comm_instance a) t (comm_worker a) (log_display a)
        (ui_connected a) (dialogs a).
Definition set_comm_worker c (a : app) : app :=
  mkApp (heap a) (next_obj a) (receivers a) (next_receiver a) (wld a) (queue a)
        (comm_instance a) (worker_thread a) c (log_display a)
        (ui_connected a) (dialogs a).
Definition set_log_display l (a : app) : app :=
  mkApp (heap a) (next_obj a) (receivers a) (next_receiver a) (wld a) (queue a)
        (comm_instance a) (worker_thread a) (comm_worker a) l
        (ui_connected a) (dialogs a).
Definition set_ui_connected b (a : app) : app :=
  mkApp (heap a) (next_obj a) (receivers a) (next_receiver a) (wld a) (queue a)
        (comm_instance a) (worker_thread a) (comm_worker a) (log_display a)
        b (dialogs a).
Definition set_dialogs d (a : app) : app :=
  mkApp (heap a) (next_obj a) (receivers a) (next_receiver a) (wld a) (queue a)
        (comm_instance a) (worker_thread a) (comm_worker a) (log_display a)
        (ui_connected a) d.

Definition set_receiver (i : nat) (r : receiver) (a : app) : app :=
  set_receivers (upd (receivers a) i r) a.

(** Call a method on the transport object at address [l]. *)
Definition invoke {A} (l : nat) (m : method transport A) : M app A :=
  fun a => match m (heap a l, wld a) with
           | (r, (o', w')) => (r, set_wld w' (set_heap (upd (heap a) l o') a))
           end.

(** [signal.emit(text)]: queued for the main thread. *)
Definition emit (s : signal) (a : app) : app := set_queue (queue a ++ [s]) a.

(** *** CommunicationWorker *)

(** One step of [run] in the thread of receiver [i]. An exception of
    [receive_data] is caught by [except Exception]. *)
Definition run_step (i : nat) (a : app) : app :=
  let r := receivers a i in
  let at_ p := mkReceiver (comm r) (_is_running r) p (quit_requested r) in
  match pc r with
  | PStart => set_receiver i (mkReceiver (comm r) true PTest (quit_requested r)) a
  | PTest => set_receiver i (at_ (if _is_running r then PReceive else PDone)) a
  | PReceive =>
      match invoke (comm r) comm_receive_data a with
      | (Ok data, a') => set_receiver i (at_ (PEmit data)) a'
      | (Raise e, a') =>
          if isinstance e Exception
          then set_receiver i (at_ PDone)
                 (emit (error_occurred (lit "Data reception error: " ++ exc_msg e)) a')
          else set_receiver i (at_ PDone) a'
      end
  | PEmit data =>
      set_receiver i (at_ PSleep)
        (if truthy data then emit (data_received (str data)) a else a)
  | PSleep => set_receiver i (at_ PTest) a
  | PDone => a
  end.

Fixpoint run_steps (n : nat) (i : nat) (a : app) : app :=
  match n with
  | O => a
  | S n' => run_steps n' i (run_step i a)
  end.

(** [stop(self)] on the worker of receiver [i]. *)
Definition stop (i : nat) (a : app) : app :=
  let r := receivers a i in
  set_receiver i (mkReceiver (comm r) false (pc r) (quit_requested r)) a.

(** [QThread.quit()] *)
Definition quit (i : nat) (a : app) : app :=
  let r := receivers a i in
  set_receiver i (mkReceiver (comm r) (_is_running r) (pc r) true) a.

(** The thread of receiver [i] has finished: [run] has returned and the
    thread's event loop was told to quit. *)
Definition finished (i : nat) (a : app) : bool :=
  match pc (receivers a i) with
  | PDone => quit_requested (receivers a i)
  | _ => false
  end.

(** [QThread.wait()]: the caller is blocked while the thread of receiver
    [i] runs on, and the call returns once the thread has finished. [None]
    when that has not happened within [fuel] steps of the thread. *)
Fixpoint wait (fuel : nat) (i : nat) (a : app) : option app :=
  if finished i a then Some a
  else match fuel with
       | O => None
       | S fuel' => wait fuel' i (run_step i a)
       end.

(** *** MainWindow *)

Definition log (message : pystr) : M app unit :=
  modify (fun a => set_log_display (log_display a ++ [message]) a).

Definition message_box (title text : pystr) : M app unit :=
  modify (fun a => set_dialogs (dialogs a ++ [(title, text)]) a).

(** [disconnect_device(self)]. The objects bound to [comm_worker],
    [worker_thread] and [comm_instance] are truthy, so each [if] tests for
    [None]. [None] when [wait()] does not return within [fuel]. *)
Definition disconnect_device (fuel : nat) (a : app) : option (result unit * app) :=
  let a1 := match comm_worker a with
            | Some i => stop i a
            | None => a
            end in
  match (match worker_thread a1 with
         | Some i => wait fuel i (quit i a1)
         | None => Some a1
         end) with
  | None => None
  | Some a2 =>
      Some ((match comm_instance a2 with
             | Some l => invoke l comm_disconnect
             | None => ret tt
             end ;;
             log (lit "Disconnected.") ;;
             modify (set_comm_instance None) ;;
             modify (set_ui_connected false)) a2)
  end.

(** [handle_comm_error(self, error_message)] *)
Definition handle_comm_error (fuel : nat) (error_message : pystr) (a : app)
  : option (result unit * app) :=
  match log (lit "ERROR: " ++ error_message) a with
  | (Raise e, a1) => Some (Raise e, a1)
  | (Ok _, a1) =>
      match disconnect_device fuel a1 with
      | None => None
      | Some (Raise e, a2) => Some (Raise e, a2)
      | Some (Ok _, a2) =>
          Some (message_box (lit "Communication Error") error_message a2)
      end
  end.

(** The constructor call selected by the protocol; [int(...)] may raise. *)
Definition build (f : form) : M app transport :=
  match protocol_combo f with
  | P_UART =>
      match baud_input f with
      | Ok baud => ret (UART (UARTCommunication.init (port_input f) baud 1))
      | Raise e => fun a => (Raise e, a)
      end
  | P_RS485 =>
      match baud_input f with
      | Ok baud => ret (RS485 (RS485Communication.init (port_input f) baud 1))
      | Raise e => fun a => (Raise e, a)
      end
  | P_CAN =>
      match baud_input f with
      | Ok bitrate =>
          ret (CAN (CANCommunication.init (channel_input f) bitrate (lit "socketcan")))
      | Raise e => fun a => (Raise e, a)
      end
  | P_I2C =>
      match bus_input f with
      | Ok bus =>
          match addr_input f with
          | Ok addr => ret (I2C (I2CCommunication.init bus addr))
          | Raise e => fun a => (Raise e, a)
          end
      | Raise e => fun a => (Raise e, a)
      end
  end.

(** Bind a new object to [self.comm_instance]. *)
Definition new_comm_instance (o : transport) : M app nat :=
  fun a => let l := next_obj a in
           (Ok l, set_comm_instance (Some l)
                    (set_next_obj (S l) (set_heap (upd (heap a) l o) a))).

(** Create the thread and the worker bound to transport [l] and start the
    thread. *)
Definition start_worker (l : nat) : M app unit :=
  modify (fun a =>
            let i := next_receiver a in
            set_comm_worker (Some i)
              (set_worker_thread (Some i)
                 (set_next_receiver (S i)
                    (set_receiver i (mkReceiver l true PStart false) a)))).

(** [connect_device(self)] *)
Definition connect_device (f : form) : M app unit :=
  try_except
    (o <- build f ;;
     l <- new_comm_instance o ;;
     invoke l comm_connect ;;
     log (lit "[" ++ protocol_text (protocol_combo f) ++ lit "] Connected successfully.") ;;
     start_worker l ;;
     modify (set_ui_connected true))
    [Exception]
    (fun e =>
       log (lit "Error connecting: " ++ exc_msg e) ;;
       message_box (lit "Connection Error") (lit "Failed to connect: " ++ exc_msg e) ;;
       modify (set_comm_instance None)).

(** [toggle_connection(self)] *)
Definition toggle_connection (fuel : nat) (f : form) (a : app)
  : option (result unit * app) :=
  match comm_instance a with
  | Some l =>
      if comm_is_connected (heap a l) then disconnect_device fuel a
      else Some (connect_device f a)
  | None => Some (connect_device f a)
  end.

(** The main thread's event loop delivers the oldest queued signal to the
    slot it is connected to. *)
Definition deliver (fuel : nat) (a : app) : option (result unit * app) :=
  match queue a with
  | [] => Some (Ok tt, a)
  | data_received text :: q => Some (log text (set_queue q a))
  | error_occurred text :: q => handle_comm_error fuel text (set_queue q a)
  end.

(** The guard shared by [send_pid_data] and [send_custom_data]:
    [not self.comm_instance or not self.comm_instance.is_connected()]. *)
Definition cannot_send (a : app) : bool :=
  match comm_instance a with
  | Some l => negb (comm_is_connected (heap a l))
  | None => true
  end.

(** [send_pid_data(self)]; [kp], [ki], [kd] are the texts of the three
    input fields. *)
Definition send_pid_data (kp ki kd : pystr) : M app unit :=
  fun a =>
    if cannot_send a then log (lit "Not connected. Cannot send data.") a
    else
      let command := lit "PID," ++ kp ++ lit "," ++ ki ++ lit "," ++ kd ++ [10%N] in
      try_except
        (match comm_instance a with
         | Some l => invoke l (comm_send_data command)
         | None => (fun a0 => (Raise (mkExc AttributeError (lit "'NoneType' object has no attribute 'send_data'")), a0))
         end ;;
         log (lit "Sent: " ++ strip command))
        [Exception]
        (fun e => log (lit "Error sending PID data: " ++ exc_msg e)) a.

(** [send_custom_data(self, data)] *)
Definition send_custom_data (data : pystr) : M app unit :=
  fun a =>
    if cannot_send a then log (lit "Not connected. Cannot send data.") a
    else
      let command := data ++ [10%N] in
      try_except
        (match comm_instance a with
         | Some l => invoke l (comm_send_data command)
         | None => (fun a0 => (Raise (mkExc AttributeError (lit "'NoneType' object has no attribute 'send_data'")), a0))
         end ;;
         log (lit "Sent: " ++ strip command))
        [Exception]
        (fun e => log (lit "Error sending custom data: " ++ exc_msg e)) a.

(** [ParameterAdjustmentWindow.send_parameters(self)]; [yaw], [roll] and
    [dist] are the texts of its fields. Its signal is connected to
    [send_custom_data] in the same thread, so the slot runs inside [emit].
    The text of the message box is "参数已发送！ (Parameters sent!)". *)
Definition send_parameters (yaw roll dist : pystr) : M app unit :=
  let command := lit "PARAMS," ++ yaw ++ lit "," ++ roll ++ lit "," ++ dist in
  send_custom_data command ;;
  message_box (lit "Success")
              ([0x53C2; 0x6570; 0x5DF2; 0x53D1; 0x9001; 0xFF01]%N
                 ++ lit " (Parameters sent!)").

(** [closeEvent(self, event)] *)
Definition closeEvent (fuel : nat) (a : app) : option (result unit * app) :=
  disconnect_device fuel a.

(** [MainWindow.__init__] *)
Definition init_app (d : dev) : app :=
  {| heap := fun _ => UART (UARTCommunication.init [] 0 1);
     next_obj := 0;
     receivers := fun _ => mkReceiver 0 true PDone false;
     next_receiver := 0;
     wld := {| device := d; trace := [] |};
     queue := [];
     comm_instance := None;
     worker_thread := None;
     comm_worker := None;
     log_display := [];
     ui_connected := false;
     dialogs := [] |}.

End App.

(* ===================================================================== *)
(** ** A test endpoint *)
(* ===================================================================== *)

(** A device used to run the transports on concrete inputs: a serial line
    and a CAN bus wired back to the host (what is written is what is read
    next) and an I2C device that echoes the last bytes written to it. The
    [script] injects faults: each call consumes one entry, and an entry that
    holds an exception makes the call raise it. *)
Module Loopback.

Record state := mk {
  script : list (option exc);
  rx : bytes;                    (* bytes on the serial line *)
  frames : list can_message;     (* frames on the CAN bus *)
  echo : list Z;                 (* bytes last written to the I2C device *)
  next_handle : handle
}.

Definition fresh (script : list (option exc)) : state :=
  {| script := script; rx := []; frames := []; echo := []; next_handle := 3 |}.

(** A line: up to and including the first [\n], or everything when the
    read times out before a line end arrives. *)
Fixpoint split_line (bs : bytes) : bytes * bytes :=
  match bs with
  | [] => ([], [])
  | b :: bs' =>
      if Byte.eqb b x0a then ([b], bs')
      else let (l, r) := split_line bs' in (b :: l, r)
  end.

Definition with_io (s : state) rx' frames' echo' nh : state :=
  {| script := script s; rx := rx'; frames := frames'; echo := echo';
     next_handle := nh |}.

(** The answer of the device when no fault is injected. *)
Definition answer {X} (c : lib_call X) (s : state) : result X * state :=
  match c in lib_call X return result X * state with
  | serial_Serial _ _ _ | can_Bus _ _ _ | smbus_SMBus _ =>
      (Ok (next_handle s),
       with_io s (rx s) (frames s) (echo s) (S (next_handle s)))
  | serial_close _ | can_shutdown _ | smbus_close _ | serial_flush _ => (Ok tt, s)
  | serial_write _ bs =>
      (Ok (Z.of_nat (length bs)),
       with_io s (rx s ++ bs) (frames s) (echo s) (next_handle s))
  | serial_read _ n =>
      (Ok (firstn (Z.to_nat n) (rx s)),
       with_io s (skipn (Z.to_nat n) (rx s)) (frames s) (echo s) (next_handle s))
  | serial_readline _ =>
      let (l, r) := split_line (rx s) in
      (Ok l, with_io s r (frames s) (echo s) (next_handle s))
  | can_send _ m =>
      (Ok tt, with_io s (rx s) (frames s ++ [m]) (echo s) (next_handle s))
  | can_recv _ _ =>
      match frames s with
      | m :: fs => (Ok (Some m), with_io s (rx s) fs (echo s) (next_handle s))
      | [] => (Ok None, s)
      end
  | smbus_read_byte _ _ => (Ok (hd 0%Z (echo s)), s)
  | smbus_write_byte _ _ v =>
      (Ok tt, with_io s (rx s) (frames s) [v] (next_handle s))
  | smbus_write_i2c_block_data _ _ _ vals =>
      (Ok tt, with_io s (rx s) (frames s) vals (next_handle s))
  | smbus_read_i2c_block_data _ _ _ len =>
      (Ok (firstn (Z.to_nat len) (echo s)), s)
  end.

Definition pop (s : state) : state :=
  {| script := tl (script s); rx := rx s; frames := frames s; echo := echo s;
     next_handle := next_handle s |}.

Definition reply (X : Type) (c : lib_call X) (s : state) : result X * state :=
  match script s with
  | Some e :: _ => (Raise e, pop s)
  | _ => answer c (pop s)
  end.

Definition env : Env := {| dev := state; respond := reply |}.

(** The world at the start of a run. *)
Definition start (script : list (option exc)) : @world env :=
  @mkWorld env (fresh script) [].

End Loopback.

(** Objects and sessions on the test endpoint. *)
Module Bench.

Definition E : Env := Loopback.env.

(** The command [send_pid_data] builds from the default field values. *)
Definition pid_line : pystr := lit "PID,1.0,0.1,0.01" ++ [10%N].

Definition uart0 : UARTCommunication.t :=
  UARTCommunication.init (lit "/dev/ttyUSB0") 115200 1.

Definition i2c0 : I2CCommunication.t := I2CCommunication.init 1 0x42.

(** The state a method call leaves behind. *)
Definition after {O A} (m : @method E O A) (s : O * @world E) : O * @world E :=
  snd (m s).

Definition uart_connected : UARTCommunication.t * @world E :=
  after UARTCommunication.connect (uart0, Loopback.start []).

Definition i2c_connected (script : list (option exc))
  : transport * @world E :=
  after comm_connect (I2C i2c0, Loopback.start (None :: None :: script)).

Definition form_of (p : protocol) (addr : Z) : form :=
  mkForm p (lit "/dev/ttyUSB0") (Ok 115200%Z) (lit "can0") (Ok 1%Z) (Ok addr).

(** The application after [connect_device] on a fresh main window. *)
Definition session (p : protocol) (script : list (option exc)) : @app E :=
  snd (@connect_device E (form_of p 0x42) (@init_app E (Loopback.fresh script))).

(** The same with the worker standing in its [receive_data()] call. *)
Definition receiving (p : protocol) (script : list (option exc)) : @app E :=
  run_steps 2 0 (session p script).

(** A timed-out transfer on the I2C bus, as smbus reports it. *)
Definition bus_timeout : exc := mkExc TimeoutError (lit "[Errno 110] Connection timed out").

Definition line_fault : exc := mkExc SerialException (lit "device reports readiness to read but returned no data").

(** Sessions used below, evaluated once. *)
Definition uart_started : @app E := Eval vm_compute in session P_UART [].

Definition uart_receiving : @app E := Eval vm_compute in receiving P_UART [].


Definition uart_receiving_fault : @app E :=
  Eval vm_compute in receiving P_UART [None; Some line_fault].

(** A release call that fails, as [os.close] reports it. *)
Definition release_fault : exc := mkExc OSError (lit "[Errno 5] Input/output error").

(** The line fails while the worker reads, and the port then fails to close. *)
Definition uart_receiving_release_fault : @app E :=
  Eval vm_compute in receiving P_UART [None; Some line_fault; Some release_fault].


(** The line ["hi\n"] arrives while the worker is in [receive_data()]. *)
Definition uart_line_arrived : @app E :=
  Eval vm_compute in
    snd (invoke 0 (comm_send_data (lit "hi" ++ [10%N])) (receiving P_UART [])).



(** Objects for the other transports and the faults injected below. *)
Definition can0 : CANCommunication.t :=
  CANCommunication.init (lit "can0") 500000 (lit "socketcan").

Definition can_connected : CANCommunication.t * @world E :=
  Eval vm_compute in after CANCommunication.connect (can0, Loopback.start []).

Definition i2c_bus_connected : I2CCommunication.t * @world E :=
  Eval vm_compute in after I2CCommunication.connect (i2c0, Loopback.start []).

(** Faults of the serial library: the port does not exist; a write does not
    complete in time. *)
Definition port_missing : exc :=
  mkExc SerialException (lit "[Errno 2] could not open port /dev/ttyUSB0").

Definition write_timeout : exc := mkExc SerialTimeoutException (lit "Write timeout").

Definition uart_write_times_out : UARTCommunication.t * @world E :=
  Eval vm_compute in
    after UARTCommunication.connect (uart0, Loopback.start [None; Some write_timeout]).

(** The command [send_parameters] builds from the default field values. *)
Definition params_line : pystr := lit "PARAMS,0.0,0.0,100.0".

End Bench.

(* ===================================================================== *)
(** ** Vocabulary of the properties *)
(* ===================================================================== *)

Section Vocabulary.
Context {E : Env}.

(** The method raises [ConnectionError] and leaves the object and the
    world (devices and trace of library calls) as they were. *)
Definition fails_unconnected {O A} (m : method O A) (o : O) (w : world) : Prop :=
  exists msg, m (o, w) = (Raise (mkExc ConnectionError msg), (o, w)).

(** Number of events of a kind in the trace. *)
Definition count (p : event -> bool) (w : world) : nat :=
  length (filter p (trace w)).

(** The bytes of one code point are a sequence the decoder accepts and
    reads back as that code point, and none of them is a line feed unless
    the code point is one. A boolean, so that it can be evaluated on every
    code point. *)
Definition reads_back (c : N) : bool :=
  match utf8_encode_cp c with
  | None => true
  | Some bs =>
      ((c =? 10)%N || forallb (fun b => negb (Byte.eqb b x0a)) bs)
      && match map Byte.to_N bs with
         | [b1] => (b1 <? 0x80)%N && (b1 =? c)%N
         | [b1; b2] =>
             negb (b1 <? 0xC2)%N && (b1 <? 0xE0)%N && is_cont b2
             && (N.shiftl (N.land b1 0x1F) 6 + low6 b2 =? c)%N
         | [b1; b2; b3] =>
             negb (b1 <? 0xE0)%N && (b1 <? 0xF0)%N && ok2_of3 b1 b2 && is_cont b3
             && (N.shiftl (N.land b1 0x0F) 12 + N.shiftl (low6 b2) 6 + low6 b3 =? c)%N
         | [b1; b2; b3; b4] =>
             negb (b1 <? 0xF0)%N && (b1 <? 0xF5)%N && ok2_of4 b1 b2
             && is_cont b3 && is_cont b4
             && (N.shiftl (N.land b1 0x07) 18 + N.shiftl (low6 b2) 12
                 + N.shiftl (low6 b3) 6 + low6 b4 =? c)%N
         | _ => false
         end
  end.

(** [P] on the [2 ^ k] numbers from [lo]. *)
Fixpoint holds_on (P : N -> bool) (k : nat) (lo : N) : bool :=
  match k with
  | O => P lo
  | S k' =>
      if holds_on P k' lo then holds_on P k' (lo + 2 ^ N.of_nat k')%N else false
  end.

(** A [bytes] object as the integers it holds. *)
Definition ints (bs : bytes) : list Z := map (fun b => Z.of_N (Byte.to_N b)) bs.

(** The payload of a write call, as integers. *)
Definition written (e : event) : option (list Z) :=
  match e with
  | Ev c _ =>
      match c with
      | serial_write _ bs => Some (ints bs)
      | can_send _ m => Some (ints (data m))
      | smbus_write_byte _ _ v => Some [v]
      | smbus_write_i2c_block_data _ _ _ vals => Some vals
      | _ => None
      end
  end.

(** The payloads of the write calls made so far, oldest first. *)
Definition writes (w : world) : list (list Z) :=
  flat_map (fun e => match written e with Some p => [p] | None => [] end) (trace w).

(** An object of [I2CCommunication] that reports connected holds a bus. *)
Definition consistent (c : transport) : Prop :=
  comm_is_connected c = true -> holds_handle c = true.

(** [disconnect()] called [n] times in a row, the caller stopping at the
    first exception. *)
Fixpoint disconnect_times (n : nat) : method transport unit :=
  match n with
  | O => ret tt
  | S n' => comm_disconnect ;; disconnect_times n'
  end.

(** The calls a client can make on an [I2CCommunication] object other than
    [disconnect()]. *)
Inductive i2c_call :=
| call_connect
| call_send_data (data : i2c_data) (register : option Z)
| call_receive_data (num_bytes : Z) (register : option Z).

Definition do_call (k : i2c_call) : method I2CCommunication.t unit :=
  match k with
  | call_connect => I2CCommunication.connect
  | call_send_data data register => I2CCommunication.send_data data register
  | call_receive_data n register =>
      _ <- I2CCommunication.receive_data n register ;; ret tt
  end.

(** A sequence of calls, each exception being caught by the caller: the
    object and world reached. *)
Fixpoint do_calls (ks : list i2c_call) (s : I2CCommunication.t * world)
  : I2CCommunication.t * world :=
  match ks with
  | [] => s
  | k :: ks' => do_calls ks' (snd (do_call k s))
  end.


(** Events that release an OS resource. *)
Definition is_release_call (e : event) : bool :=
  match e with
  | Ev c _ =>
      match c with
      | serial_close _ | can_shutdown _ | smbus_close _ => true
      | _ => false
      end
  end.

(** Steps of [run] left before it returns once the flag is cleared, and
    the library calls and signals it can still make on the way. *)
Definition steps_left (p : run_pc) : nat :=
  match p with
  | PStart => 5
  | PReceive => 4
  | PEmit _ => 3
  | PSleep => 2
  | PTest => 1
  | PDone => 0
  end.

Definition calls_left (p : run_pc) : nat :=
  match p with
  | PReceive => 1
  | _ => 0
  end.

Definition signals_left (p : run_pc) : nat :=
  match p with
  | PReceive | PEmit _ => 1
  | _ => 0
  end.

(** A call that releases an OS resource and raised. *)
Definition is_failed_release (e : event) : bool :=
  match e with
  | Ev _ (Raise _) => is_release_call e
  | Ev _ (Ok _) => false
  end.

(** A string that neither begins nor ends with whitespace. *)
Definition trimmed (s : pystr) : bool :=
  match s, rev s with
  | c :: _, z :: _ => negb (isspace c) && negb (isspace z)
  | _, _ => true
  end.

(** The worker and its thread were created together, and an active
    transport has a worker bound to that very object. *)
Definition wired (a : app) : Prop :=
  comm_worker a = worker_thread a
  /\ forall l, comm_instance a = Some l ->
               exists i, comm_worker a = Some i /\ comm (receivers a i) = l.

(** Nothing is connected, and the thread, if there is one, has finished. *)
Definition idle (a : app) : Prop :=
  comm_instance a = None
  /\ forall i, worker_thread a = Some i -> finished i a = true.

End Vocabulary.

(* ===================================================================== *)
(** ** Properties *)
(* ===================================================================== *)

(** Unfold a method body down to the library calls. *)
Ltac unfold_bodies :=
  unfold comm_connect, comm_disconnect, comm_send_data, comm_receive_data, on,
    UARTCommunication.connect, UARTCommunication.disconnect,
    UARTCommunication.send_data, UARTCommunication.receive_data,
    UARTCommunication.is_connected,
    RS485Communication.connect, RS485Communication.disconnect,
    RS485Communication.send_data, RS485Communication.receive_data,
    RS485Communication.is_connected,
    CANCommunication.connect, CANCommunication.disconnect,
    CANCommunication.send_data, CANCommunication.receive_data,
    CANCommunication.is_connected,
    I2CCommunication.connect, I2CCommunication.disconnect,
    I2CCommunication.send_data, I2CCommunication.receive_data,
    I2CCommunication.is_connected, I2CCommunication.the_bus,
    encode_utf8, none_has_no,
    try_except, bind, ret, raise, self, setattr, call, perform, modify in *.

Ltac unfold_methods :=
  unfold_bodies;
  try change (Z.to_nat 1) with 1%nat in *;
  cbn [I2CCommunication.read_bytes] in *;
  unfold_bodies.

(** Split on the answer of the device to the next library call, on the
    class of an exception, or on an optional attribute. *)
Ltac case_step :=
  match goal with
  | |- context [respond ?c ?d] =>
      let x := fresh "x" in
      let e := fresh "e" in
      let d' := fresh "d" in
      destruct (respond c d) as [[x | e] d'] eqn:?
  | |- context [isinstance ?e ?k] => destruct (isinstance e k) eqn:?
  | |- context [match ?o with Some _ => _ | None => _ end] => is_var o; destruct o
  | |- context [if ?b then _ else _] => is_var b; destruct b
  | |- context [utf8_encode ?s] => destruct (utf8_encode s) eqn:?
  | |- context [match I2CCommunication.ords ?s with _ => _ end] =>
      destruct (I2CCommunication.ords s) eqn:?
  | |- context [match ?x with _ => _ end] => is_var x; destruct x
  end; cbn in *.

(** Count events of a trace that grew by appended calls. *)
Ltac count_events :=
  unfold count; cbn; rewrite ?filter_app, ?length_app; cbn; lia.

(** The cases of a connection form that [build] distinguishes: the protocol,
    and for each protocol the fields it converts. *)
Ltac connect_cases f :=
  let p := fresh "p" in let port := fresh "port" in
  let baud := fresh "baud" in let chan := fresh "chan" in
  let bus := fresh "bus" in let addr := fresh "addr" in
  destruct f as [p port baud chan bus addr];
  destruct p;
  [ destruct baud as [baud | ?]
  | destruct baud as [baud | ?]
  | destruct baud as [baud | ?]
  | destruct bus as [bus | ?]; [destruct addr as [addr | ?] |] ].

Unset Implicit Arguments.

Section Properties.
Context {E : Env}.

(** C1. On a transport that is not connected, [send_data] and
    [receive_data] of every class, with any arguments, raise
    [ConnectionError]; the object and the world are unchanged, so no
    library call is made. *)
Theorem disconnected_send_receive_fail (c : transport) (w : world) :
  comm_is_connected c = false ->
  match c with
  | UART o =>
      (forall data, fails_unconnected (UARTCommunication.send_data data) o w)
      /\ (forall n, fails_unconnected (UARTCommunication.receive_data n) o w)
  | RS485 o =>
      (forall data, fails_unconnected (RS485Communication.send_data data) o w)
      /\ fails_unconnected RS485Communication.receive_data o w
  | CAN o =>
      (forall data id, fails_unconnected (CANCommunication.send_data data id) o w)
      /\ (forall t, fails_unconnected (CANCommunication.receive_data t) o w)
  | I2C o =>
      (forall data reg, fails_unconnected (I2CCommunication.send_data data reg) o w)
      /\ (forall n reg, fails_unconnected (I2CCommunication.receive_data n reg) o w)
  end.
Proof.
  intros Hc. unfold fails_unconnected.
  destruct c as [o | o | o | o]; cbn in Hc; split; intros;
    unfold_methods; cbn; rewrite Hc; cbn; eexists; reflexivity.
Qed.

(** [consistent] holds of every object as constructed and is kept by every
    method, whatever the devices answer. *)
Lemma consistent_invariant (c : transport) (w : world) :
  consistent (I2C (I2CCommunication.init 0 0))
  /\ (consistent c ->
      consistent (fst (snd (comm_connect (c, w))))
      /\ consistent (fst (snd (comm_disconnect (c, w))))
      /\ (forall data, consistent (fst (snd (comm_send_data data (c, w)))))
      /\ consistent (fst (snd (comm_receive_data (c, w))))).
Proof.
  unfold consistent. split; [discriminate|]. intros Hc.
  repeat split; intros;
    destruct c as [o | o | o | o];
    [ destruct o as [? ? ? [[? [|]]|]] | destruct o as [? ? ? [[? [|]]|]]
    | destruct o as [? ? ? [?|]] | destruct o as [? ? [?|] [|]]
    | destruct o as [? ? ? [[? [|]]|]] | destruct o as [? ? ? [[? [|]]|]]
    | destruct o as [? ? ? [?|]] | destruct o as [? ? [?|] [|]]
    | destruct o as [? ? ? [[? [|]]|]] | destruct o as [? ? ? [[? [|]]|]]
    | destruct o as [? ? ? [?|]] | destruct o as [? ? [?|] [|]]
    | destruct o as [? ? ? [[? [|]]|]] | destruct o as [? ? ? [[? [|]]|]]
    | destruct o as [? ? ? [?|]] | destruct o as [? ? [?|] [|]] ];
    cbn in Hc; revert H; unfold_methods; cbn; repeat case_step;
    intros; cbn in *; auto; try discriminate.
Qed.

(** C5. Two [connect()] calls in a row open the OS resource at most once:
    at most one open succeeds over the two calls; when the first call
    returns normally at most one open is even attempted; and when the
    transport is connected after the first call, the second call returns
    [None] at once: no library call, nothing changed. *)
Theorem connect_twice_opens_once (c : transport) (w : world) :
  consistent c ->
  match comm_connect (c, w) with
  | (r1, (c1, w1)) =>
      match comm_connect (c1, w1) with
      | (r2, (c2, w2)) =>
          count is_open_event w2 <= S (count is_open_event w)
          /\ (r1 = Ok tt -> count is_open_attempt w2 <= S (count is_open_attempt w))
          /\ (comm_is_connected c1 = true -> r2 = Ok tt /\ c2 = c1 /\ w2 = w1)
      end
  end.
Proof.
  unfold consistent. intros Hc.
  destruct c as [o | o | o | o];
    [ destruct o as [? ? ? [[? [|]]|]] | destruct o as [? ? ? [[? [|]]|]]
    | destruct o as [? ? ? [?|]] | destruct o as [? ? [?|] [|]] ];
    cbn in Hc; unfold_methods; cbn; repeat case_step;
    repeat split; intros; try discriminate; try congruence; try count_events.
Qed.

(** C10. When [connect()] of the I2C transport opens the bus but the probe
    [read_byte] fails, [ConnectionError] is raised with the bus still
    stored and [is_connected()] false. From then on every [connect()]
    returns at once, and no sequence of [connect], [send_data] and
    [receive_data] calls changes the object or reaches the device, so the
    transport stays not connected; only [disconnect()] clears the handle,
    after which [connect()] opens the bus again. *)
Theorem i2c_failed_probe_blocks_reconnect
        (o : I2CCommunication.t) (w : world) (h : handle) (e : exc) (d1 d2 : dev) :
  I2CCommunication.bus o = None ->
  respond (smbus_SMBus (I2CCommunication.bus_number o)) (device w) = (Ok h, d1) ->
  respond (smbus_read_byte h (I2CCommunication.device_address o)) d1 = (Raise e, d2) ->
  existsb (isinstance e) [FileNotFoundError; IOError] = true ->
  match I2CCommunication.connect (o, w) with
  | (r, (o1, w1)) =>
      (exists msg, r = Raise (mkExc ConnectionError msg))
      /\ I2CCommunication.bus o1 = Some h
      /\ I2CCommunication.is_connected o1 = false
      /\ I2CCommunication.connect (o1, w1) = (Ok tt, (o1, w1))
      /\ (forall ks, do_calls ks (o1, w1) = (o1, w1))
      /\ (forall o2 w2,
             I2CCommunication.disconnect (o1, w1) = (Ok tt, (o2, w2)) ->
             I2CCommunication.bus o2 = None
             /\ count is_open_attempt
                  (snd (snd (I2CCommunication.connect (o2, w2))))
                = S (count is_open_attempt w2))
  end.
Proof.
  intros Hb H1 H2 He. destruct o as [bn da b cn]. cbn in Hb, H1, H2, He. subst b.
  unfold_methods. cbn.
  rewrite H1. cbn. rewrite H2. cbn. cbn in He. rewrite He. cbn.
  split; [eexists; reflexivity|].
  split; [reflexivity|]. split; [reflexivity|]. split; [reflexivity|].
  split.
  - induction ks as [|k ks IH]; [reflexivity|].
    cbn [do_calls]. destruct k; cbn; exact IH.
  - intros o2 w2. destruct (respond (smbus_close h) d2) as [[[]|e'] d3]; cbn;
      intros Heq; inversion Heq; subst; clear Heq. cbn. split; [reflexivity|].
    repeat case_step; count_events.
Qed.

(** [disconnect()] on a transport without a handle: no library call. *)
Lemma disconnect_idle (c : transport) (w : world) :
  holds_handle c = false ->
  exists c', comm_disconnect (c, w) = (Ok tt, (c', w))
             /\ comm_is_connected c' = false /\ holds_handle c' = false.
Proof.
  destruct c as [o | o | o | o];
    [ destruct o as [? ? ? [[? [|]]|]] | destruct o as [? ? ? [[? [|]]|]]
    | destruct o as [? ? ? [?|]] | destruct o as [? ? [?|] [|]] ];
    cbn; intros Hh; try discriminate;
    eexists; unfold_methods; cbn; (split; [reflexivity | split; reflexivity]).
Qed.

Lemma disconnect_times_idle (n : nat) :
  forall (c : transport) (w : world),
    holds_handle c = false ->
    exists c', disconnect_times (S n) (c, w) = (Ok tt, (c', w))
               /\ comm_is_connected c' = false /\ holds_handle c' = false.
Proof.
  induction n as [|n IH]; intros c w Hh.
  - destruct (disconnect_idle c w Hh) as (c' & Hd & Hc & Hn).
    exists c'. cbn [disconnect_times]. unfold bind at 1. rewrite Hd. auto.
  - destruct (disconnect_idle c w Hh) as (c1 & Hd & Hc & Hn).
    destruct (IH c1 w Hn) as (c' & Hd' & Hc' & Hn').
    exists c'. change (disconnect_times (S (S n)))
      with (bind comm_disconnect (fun _ => disconnect_times (S n))).
    unfold bind at 1. rewrite Hd. auto.
Qed.

(** C3 (amended). Whenever [disconnect()] returns, the transport is not
    connected and holds no OS handle; on a transport that holds no handle
    (never connected, or already disconnected) it returns without a library
    call, however many times it is called. A [connect()] that fails
    without any open having succeeded leaves a disconnected transport
    disconnected and without a handle. A [send_data] or [receive_data] that
    raises leaves the object as it was: the handle is kept until
    [disconnect()] is called. *)
Theorem disconnect_releases_handle (c : transport) (w : world) :
  (forall c' w',
      comm_disconnect (c, w) = (Ok tt, (c', w')) ->
      comm_is_connected c' = false /\ holds_handle c' = false)
  /\ (holds_handle c = false ->
      forall n, exists c',
        disconnect_times (S n) (c, w) = (Ok tt, (c', w))
        /\ comm_is_connected c' = false /\ holds_handle c' = false)
  /\ (comm_is_connected c = false -> holds_handle c = false ->
      forall e c' w',
        comm_connect (c, w) = (Raise e, (c', w')) ->
        count is_open_event w' = count is_open_event w ->
        comm_is_connected c' = false /\ holds_handle c' = false)
  /\ (forall data e c' w',
         comm_send_data data (c, w) = (Raise e, (c', w')) -> c' = c)
  /\ (forall e c' w',
         comm_receive_data (c, w) = (Raise e, (c', w')) -> c' = c).
Proof.
  split; [|split; [|split; [|split]]].
  - intros c' w'.
    destruct c as [o | o | o | o];
      [ destruct o as [? ? ? [[? [|]]|]] | destruct o as [? ? ? [[? [|]]|]]
      | destruct o as [? ? ? [?|]] | destruct o as [? ? [?|] [|]] ];
      unfold_methods; cbn; repeat case_step;
      intros Heq; inversion Heq; subst; cbn; auto.
  - intros Hh n. apply disconnect_times_idle; assumption.
  - intros Hc Hh e c' w'.
    destruct c as [o | o | o | o];
      [ destruct o as [? ? ? [[? [|]]|]] | destruct o as [? ? ? [[? [|]]|]]
      | destruct o as [? ? ? [?|]] | destruct o as [? ? [?|] [|]] ];
      cbn in Hc, Hh; try discriminate;
      unfold_methods; cbn; repeat case_step;
      intros Heq; inversion Heq; subst; cbn; auto;
      unfold count; cbn; rewrite ?filter_app, ?length_app; cbn; intros; lia.
  - intros data e c' w'.
    destruct c as [o | o | o | o];
      [ destruct o as [? ? ? [[? [|]]|]] | destruct o as [? ? ? [[? [|]]|]]
      | destruct o as [? ? ? [?|]] | destruct o as [? ? [?|] [|]] ];
      unfold_methods; cbn; repeat case_step;
      intros Heq; inversion Heq; subst; cbn; auto.
  - intros e c' w'.
    destruct c as [o | o | o | o];
      [ destruct o as [? ? ? [[? [|]]|]] | destruct o as [? ? ? [[? [|]]|]]
      | destruct o as [? ? ? [?|]] | destruct o as [? ? [?|] [|]] ];
      unfold_methods; cbn; repeat case_step;
      intros Heq; inversion Heq; subst; cbn; auto.
Qed.

(** The code points of an ASCII string are its UTF-8 bytes. *)
Lemma ascii_ords_are_utf8 (s : pystr) :
  forall bs, Forall (fun c => (c < 0x80)%N) s ->
             utf8_encode s = Some bs -> I2CCommunication.ords s = ints bs.
Proof.
  induction s as [|c s IH]; intros bs Ha He.
  - cbn in He. inversion He. reflexivity.
  - inversion Ha as [|? ? Hc Hs]; subst.
    unfold utf8_encode in He; fold utf8_encode in He.
    unfold utf8_encode_cp in He.
    apply N.ltb_lt in Hc. rewrite Hc in He.
    destruct (utf8_encode s) as [rest|]; [|discriminate].
    inversion He; subst. cbn. f_equal; [|apply IH; auto].
    unfold b8. apply N.ltb_lt in Hc.
    rewrite N.mod_small by lia.
    destruct (Byte.of_N c) as [b|] eqn:Hb.
    + apply Byte.to_of_N in Hb. now rewrite Hb.
    + apply Byte.of_N_None_iff in Hb. lia.
Qed.

(** C2 (amended). On a connected UART, RS485 or CAN transport,
    [send_data] makes exactly one write call and its payload is the whole
    UTF-8 encoding of the string. The I2C transport sends the code points
    of the string ([ord(c)], the UTF-8 bytes when the string is ASCII): with
    a register, all of them in one block write; without one, the first of
    them only in one byte write, and nothing for the empty string. *)
Theorem send_writes_payload (c : transport) (w : world) (data : pystr) (bs : bytes) :
  comm_is_connected c = true ->
  holds_handle c = true ->
  utf8_encode data = Some bs ->
  match c with
  | UART o =>
      writes (snd (snd (UARTCommunication.send_data data (o, w))))
      = writes w ++ [ints bs]
  | RS485 o =>
      writes (snd (snd (RS485Communication.send_data data (o, w))))
      = writes w ++ [ints bs]
  | CAN o =>
      forall id,
        writes (snd (snd (CANCommunication.send_data data id (o, w))))
        = writes w ++ [ints bs]
  | I2C o =>
      (forall reg,
          writes (snd (snd (I2CCommunication.send_data (DStr data) (Some reg) (o, w))))
          = writes w ++ [I2CCommunication.ords data])
      /\ writes (snd (snd (I2CCommunication.send_data (DStr data) None (o, w))))
         = writes w ++ match I2CCommunication.ords data with
                       | [] => []
                       | first :: _ => [[first]]
                       end
      /\ (Forall (fun c => (c < 0x80)%N) data -> I2CCommunication.ords data = ints bs)
  end.
Proof.
  intros Hc Hh He.
  destruct c as [o | o | o | o];
    [ destruct o as [? ? ? [[? [|]]|]] | destruct o as [? ? ? [[? [|]]|]]
    | destruct o as [? ? ? [?|]] | destruct o as [? ? [?|] [|]] ];
    cbn in Hc, Hh; try discriminate;
    [ | | intros id | split; [intros reg | split;
                               [| intros Ha; eapply ascii_ords_are_utf8; eauto]] ];
    unfold_methods; cbn; rewrite ?He; cbn; repeat case_step;
    unfold writes; cbn; rewrite ?flat_map_app; cbn; rewrite ?app_nil_r;
    reflexivity.
Qed.


Arguments upd : simpl never.

Lemma upd_same {A} (f : nat -> A) (i : nat) (x : A) : upd f i x i = x.
Proof. unfold upd. now rewrite Nat.eqb_refl. Qed.

(** Every exception of the model is an [Exception]. *)
Lemma all_exceptions (e : exc) : isinstance e Exception = true.
Proof. destruct e as [[] ?]; reflexivity. Qed.

(** What one step of [run] does to its own receiver, to the signal queue
    and to the world. *)
Lemma run_step_spec (a : app) (i : nat) :
  let r := receivers a i in
  let a' := run_step i a in
  let at_ p := mkReceiver (comm r) (_is_running r) p (quit_requested r) in
  match pc r with
  | PStart =>
      receivers a' i = mkReceiver (comm r) true PTest (quit_requested r)
      /\ queue a' = queue a /\ wld a' = wld a
  | PTest =>
      receivers a' i = at_ (if _is_running r then PReceive else PDone)
      /\ queue a' = queue a /\ wld a' = wld a
  | PReceive =>
      match comm_receive_data (heap a (comm r), wld a) with
      | (Ok v, (_, w')) =>
          receivers a' i = at_ (PEmit v) /\ queue a' = queue a /\ wld a' = w'
      | (Raise e, (_, w')) =>
          receivers a' i = at_ PDone
          /\ queue a' = queue a
                          ++ [error_occurred (lit "Data reception error: " ++ exc_msg e)]
          /\ wld a' = w'
      end
  | PEmit v =>
      receivers a' i = at_ PSleep
      /\ queue a' = (if truthy v then queue a ++ [data_received (str v)] else queue a)
      /\ wld a' = wld a
  | PSleep =>
      receivers a' i = at_ PTest /\ queue a' = queue a /\ wld a' = wld a
  | PDone => a' = a
  end.
Proof.
  destruct a as [hp no rs nr w q ci wt cw lg ui dl].
  unfold run_step. cbn.
  destruct (rs i) as [l run p qr] eqn:Hr. cbn.
  destruct p as [ | | | v | | ]; cbn; rewrite ?upd_same; auto.
  - unfold invoke. cbn.
    destruct (comm_receive_data (hp l, w)) as [[v | e] [o' w']]; cbn.
    + rewrite upd_same. auto.
    + rewrite all_exceptions. cbn. rewrite upd_same. auto.
  - destruct (truthy v); cbn; rewrite ?upd_same; auto.
Qed.

(** [receive_data()] makes at most one library call. *)
Lemma receive_one_call (c : transport) (w : world) :
  length (trace (snd (snd (comm_receive_data (c, w))))) <= S (length (trace w)).
Proof.
  destruct c as [o | o | o | o];
    [ destruct o as [? ? ? [[? [|]]|]] | destruct o as [? ? ? [[? [|]]|]]
    | destruct o as [? ? ? [?|]] | destruct o as [? ? [?|] [|]] ];
    unfold_methods; cbn; repeat case_step; rewrite ?length_app; cbn; lia.
Qed.



Lemma stop_spec (a : app) (i : nat) :
  receivers (stop i a) i
  = mkReceiver (comm (receivers a i)) false (pc (receivers a i))
               (quit_requested (receivers a i))
  /\ queue (stop i a) = queue a /\ wld (stop i a) = wld a
  /\ heap (stop i a) = heap a.
Proof.
  destruct a. unfold stop. cbn. rewrite upd_same. auto.
Qed.

(** One step of a worker whose flag is cleared and whose [run] has begun. *)
Lemma stopped_step (a : app) (i : nat) :
  _is_running (receivers a i) = false ->
  pc (receivers a i) <> PStart ->
  let p := pc (receivers a i) in
  let a' := run_step i a in
  let p' := pc (receivers a' i) in
  _is_running (receivers a' i) = false
  /\ p' <> PStart
  /\ steps_left p' <= pred (steps_left p)
  /\ length (trace (wld a')) + calls_left p' <= length (trace (wld a)) + calls_left p
  /\ length (queue a') + signals_left p' <= length (queue a) + signals_left p
  /\ (p <> PReceive -> p' <> PReceive /\ wld a' = wld a)
  /\ (signals_left p = 0 -> queue a' = queue a).
Proof.
  intros Hrun Hp. pose proof (run_step_spec a i) as S. cbv zeta in *.
  destruct (receivers a i) as [l run p qr] eqn:Hr. cbn in *. subst run.
  destruct p as [ | | | v | | ]; try congruence.
  - destruct S as (R & Q & W). rewrite R, Q, W. cbn.
    repeat split; try congruence; try lia.
  - pose proof (receive_one_call (heap a l) (wld a)) as Hone.
    destruct (comm_receive_data (heap a l, wld a)) as [[v | e] [o' w']];
      destruct S as (R & Q & W); rewrite R, Q, W; cbn in *;
      rewrite ?length_app; cbn;
      repeat split; try congruence; try lia.
  - destruct S as (R & Q & W). rewrite R, Q, W. cbn.
    destruct (truthy v); rewrite ?length_app; cbn;
      repeat split; try congruence; try lia.
  - destruct S as (R & Q & W). rewrite R, Q, W. cbn.
    repeat split; try congruence; try lia.
  - rewrite S, Hr. cbn. repeat split; try congruence; try lia.
Qed.

Lemma stopped_steps (n : nat) :
  forall (a : app) (i : nat),
    _is_running (receivers a i) = false ->
    pc (receivers a i) <> PStart ->
    let p := pc (receivers a i) in
    let a' := run_steps n i a in
    let p' := pc (receivers a' i) in
    steps_left p' <= steps_left p - n
    /\ length (trace (wld a')) + calls_left p' <= length (trace (wld a)) + calls_left p
    /\ length (queue a') + signals_left p' <= length (queue a) + signals_left p
    /\ (p <> PReceive -> wld a' = wld a)
    /\ (signals_left p = 0 -> queue a' = queue a).
Proof.
  induction n as [|n IH]; intros a i Hrun Hp; cbv zeta.
  - cbn. repeat split; auto; lia.
  - change (run_steps (S n) i a) with (run_steps n i (run_step i a)).
    destruct (stopped_step a i Hrun Hp) as (Hrun' & Hp' & Hs & Ht & Hq & Hw & Hz).
    destruct (IH (run_step i a) i Hrun' Hp') as (Is & It & Iq & Iw & Iz).
    repeat split; try lia.
    + intros Hne. destruct (Hw Hne) as [Hne' Heq]. rewrite (Iw Hne'). exact Heq.
    + intros Hz0. pose proof (Hz Hz0) as Hqe. rewrite Hqe in Hq.
      rewrite Iz; [exact Hqe | lia].
Qed.

(** C7 (amended). Once [run] has begun, [stop()] makes its loop end with
    the iteration in progress: [run] returns within four more steps of its
    thread, it completes at most one more [receive_data()] call (one
    library call) and emits at most one more signal after [stop()] has
    returned, and when no [receive_data()] call is in progress it makes no
    library call at all, and emits nothing when it stands at the loop test,
    in the sleep or after the loop. *)
Theorem stop_ends_loop_after_current_iteration (a : app) (i : nat) :
  pc (receivers a i) <> PStart ->
  pc (receivers (run_steps 4 i (stop i a)) i) = PDone
  /\ (forall n,
         length (trace (wld (run_steps n i (stop i a)))) <= S (length (trace (wld a)))
         /\ length (queue (run_steps n i (stop i a))) <= S (length (queue a)))
  /\ (pc (receivers a i) <> PReceive ->
      forall n, wld (run_steps n i (stop i a)) = wld a)
  /\ (signals_left (pc (receivers a i)) = 0 ->
      forall n, queue (run_steps n i (stop i a)) = queue a).
Proof.
  intros Hp.
  destruct (stop_spec a i) as (R & Q & W & _).
  assert (Hrun : _is_running (receivers (stop i a) i) = false) by now rewrite R.
  assert (Hpc : pc (receivers (stop i a) i) = pc (receivers a i)) by now rewrite R.
  assert (Hp0 : pc (receivers (stop i a) i) <> PStart) by now rewrite Hpc.
  split; [|split; [|split]].
  - destruct (stopped_steps 4 (stop i a) i Hrun Hp0) as (Hs & _).
    cbv zeta in Hs. rewrite Hpc in Hs.
    destruct (pc (receivers (run_steps 4 i (stop i a)) i)); cbn in Hs;
      try reflexivity; destruct (pc (receivers a i)) eqn:Hpa; cbn in Hs;
      try congruence; lia.
  - intros n.
    destruct (stopped_steps n (stop i a) i Hrun Hp0) as (_ & Ht & Hq & _).
    cbv zeta in Ht, Hq. rewrite Hpc, W in Ht. rewrite Hpc, Q in Hq.
    destruct (pc (receivers a i)); cbn in Ht, Hq;
      destruct (pc (receivers (run_steps n i (stop i a)) i)); cbn in Ht, Hq; lia.
  - intros Hne n.
    destruct (stopped_steps n (stop i a) i Hrun Hp0) as (_ & _ & _ & Hw & _).
    cbv zeta in Hw. rewrite Hpc, W in Hw. auto.
  - intros Hz n.
    destruct (stopped_steps n (stop i a) i Hrun Hp0) as (_ & _ & _ & _ & Hzz).
    cbv zeta in Hzz. rewrite Hpc, Q in Hzz. auto.
Qed.

(** [receive_data()] does not change the object it is called on. *)
Lemma receive_keeps_object (c : transport) (w : world) :
  fst (snd (comm_receive_data (c, w))) = c.
Proof.
  destruct c as [o | o | o | o];
    [ destruct o as [? ? ? [[? [|]]|]] | destruct o as [? ? ? [[? [|]]|]]
    | destruct o as [? ? ? [?|]] | destruct o as [? ? [?|] [|]] ];
    unfold_methods; cbn; repeat case_step; reflexivity.
Qed.

Lemma wait_finished (fuel i : nat) (a : app) :
  finished i a = true -> wait fuel i a = Some a.
Proof. intros Hf. destruct fuel; cbn; rewrite Hf; reflexivity. Qed.

Lemma run_steps_done (n i : nat) (a : app) :
  pc (receivers a i) = PDone -> run_steps n i a = a.
Proof.
  intros Hp. induction n as [|n IH]; [reflexivity|].
  cbn [run_steps]. pose proof (run_step_spec a i) as S. cbv zeta in S.
  rewrite Hp in S. rewrite S. exact IH.
Qed.

(** A step of [run] leaves the attributes of the main window alone, and
    the transport objects too. *)
Lemma run_step_frame (a : app) (i : nat) :
  comm_worker (run_step i a) = comm_worker a
  /\ worker_thread (run_step i a) = worker_thread a
  /\ comm_instance (run_step i a) = comm_instance a
  /\ (forall l, heap (run_step i a) l = heap a l).
Proof.
  destruct a as [hp no rs nr w q ci wt cw lg ui dl].
  unfold run_step. cbn.
  destruct (rs i) as [l run p qr]. cbn.
  destruct p as [ | | | v | | ]; cbn; auto.
  - unfold invoke. cbn.
    pose proof (receive_keeps_object (hp l) w) as Hk.
    destruct (comm_receive_data (hp l, w)) as [[v | e] [o' w']]; cbn in *;
      subst o'; rewrite ?all_exceptions; cbn; repeat split; auto;
      intros l'; unfold upd; destruct (Nat.eqb l' l) eqn:Hll; auto;
      apply Nat.eqb_eq in Hll; now subst.
  - destruct (truthy v); cbn; auto.
Qed.

(** The event loop hands an [error_occurred] signal to [handle_comm_error]
    and a [data_received] signal to [log]. *)
Lemma deliver_dispatch (fuel : nat) (a : app) (s : signal) (q : list signal) :
  queue a = s :: q ->
  deliver fuel a
  = match s with
    | data_received text => Some (log text (set_queue q a))
    | error_occurred text => handle_comm_error fuel text (set_queue q a)
    end.
Proof.
  intros Hq. unfold deliver. rewrite Hq. destruct s; reflexivity.
Qed.

(** The error handler on a session whose worker has returned from [run]. *)
Lemma handle_comm_error_disconnects (a : app) (i l fuel : nat) (msg : pystr) :
  comm_worker a = Some i ->
  worker_thread a = Some i ->
  comm_instance a = Some l ->
  pc (receivers a i) = PDone ->
  exists r a2,
    handle_comm_error fuel msg a = Some (r, a2)
    /\ _is_running (receivers a2 i) = false
    /\ finished i a2 = true
    /\ (holds_handle (heap a l) = true ->
        count is_release_call (wld a2) = S (count is_release_call (wld a)))
    /\ (r = Ok tt \/
        count is_failed_release (wld a2) = S (count is_failed_release (wld a)))
    /\ (r = Ok tt ->
        comm_is_connected (heap a2 l) = false
        /\ holds_handle (heap a2 l) = false
        /\ comm_instance a2 = None
        /\ ui_connected a2 = false)
    /\ (r <> Ok tt ->
        heap a2 l = heap a l
        /\ comm_instance a2 = Some l
        /\ ui_connected a2 = ui_connected a
        /\ dialogs a2 = dialogs a).
Proof.
  intros Hcw Hwt Hci Hpc.
  destruct a as [hp no rs nr w q ci wt cw lg ui dl]. cbn in *. subst.
  unfold handle_comm_error, log, modify. cbn.
  unfold disconnect_device. cbn.
  rewrite wait_finished.
  2:{ unfold finished, quit, stop. cbn. rewrite !upd_same. cbn.
      rewrite Hpc. reflexivity. }
  unfold quit, stop, invoke, log, modify, bind; cbn. rewrite !upd_same. cbn.
  destruct (hp l) as [o | o | o | o] eqn:Hl;
    [ destruct o as [? ? ? [[? [|]]|]] | destruct o as [? ? ? [[? [|]]|]]
    | destruct o as [? ? ? [?|]] | destruct o as [? ? [?|] [|]] ];
    unfold_methods; cbn; repeat case_step;
    unfold message_box, modify; cbn;
    do 2 eexists; (split; [reflexivity|]);
    unfold finished; cbn; rewrite ?upd_same; cbn; rewrite ?Hpc;
    repeat split; intros; try discriminate; auto;
    try (left; reflexivity); try (right; count_events); try count_events;
    try congruence.
Qed.

(** C8 (amended). An exception raised by [receive_data()] in the worker's
    loop is emitted as exactly one [error_occurred] signal, after which
    [run] has returned and never calls [receive_data()] again. The handler
    of that signal, [handle_comm_error], ends for every bound on the wait:
    it has cleared the worker's flag, told the thread to quit and waited
    for it, and called [disconnect()] on the transport, which issues the
    release call for the handle. When the handler returns normally the
    disconnect is full: the transport is not connected, holds no handle,
    [comm_instance] is [None] and the buttons show the disconnected state.
    It ends with an exception only when the release call itself raised,
    and then nothing is disconnected: the transport object, [comm_instance]
    and the buttons are as they were and no message box is shown. *)
Theorem receive_error_ends_loop_and_forces_disconnect
        (a : app) (i l : nat) (e : exc) (fuel : nat) :
  pc (receivers a i) = PReceive ->
  comm (receivers a i) = l ->
  comm_worker a = Some i ->
  worker_thread a = Some i ->
  comm_instance a = Some l ->
  fst (comm_receive_data (heap a l, wld a)) = Raise e ->
  let msg := lit "Data reception error: " ++ exc_msg e in
  let a1 := run_step i a in
  queue a1 = queue a ++ [error_occurred msg]
  /\ pc (receivers a1 i) = PDone
  /\ (forall n, run_steps n i a1 = a1)
  /\ exists r a2,
      handle_comm_error fuel msg a1 = Some (r, a2)
      /\ _is_running (receivers a2 i) = false
      /\ finished i a2 = true
      /\ (holds_handle (heap a l) = true ->
          count is_release_call (wld a2) = S (count is_release_call (wld a1)))
      /\ (r = Ok tt \/
          count is_failed_release (wld a2) = S (count is_failed_release (wld a1)))
      /\ (r = Ok tt ->
          comm_is_connected (heap a2 l) = false
          /\ holds_handle (heap a2 l) = false
          /\ comm_instance a2 = None
          /\ ui_connected a2 = false)
      /\ (r <> Ok tt ->
          heap a2 l = heap a1 l
          /\ comm_instance a2 = Some l
          /\ ui_connected a2 = ui_connected a1
          /\ dialogs a2 = dialogs a1).
Proof.
  intros Hpc Hl Hcw Hwt Hci Hrecv. cbv zeta.
  pose proof (run_step_spec a i) as S. cbv zeta in S.
  rewrite Hpc, Hl in S.
  pose proof (receive_keeps_object (heap a l) (wld a)) as Hkeep.
  destruct (comm_receive_data (heap a l, wld a)) as [r [o' w']] eqn:Hr.
  cbn in Hrecv, Hkeep. subst r o'. destruct S as (R & Q & W).
  split; [exact Q|]. split; [now rewrite R|].
  split; [intros n; apply run_steps_done; now rewrite R|].
  destruct (run_step_frame a i) as (Fcw & Fwt & Fci & Fh).
  destruct (handle_comm_error_disconnects (run_step i a) i l fuel
              (lit "Data reception error: " ++ exc_msg e))
    as (r & a2 & Hh & Hrun & Hfin & Hrel & Hfail & Hfull & Hkeep).
  - now rewrite Fcw.
  - now rewrite Fwt.
  - now rewrite Fci.
  - now rewrite R.
  - exists r, a2. rewrite Fh in Hrel.
    repeat (split; [assumption|]). assumption.
Qed.

End Properties.

(* ===================================================================== *)
(** ** Further properties *)
(* ===================================================================== *)

Section Further.
Context {E : Env}.

(** X1. A [connect()] that returns on a transport without a handle has made
    exactly one successful open, and leaves the transport connected and
    holding the handle. *)
Theorem connect_success_state (c : transport) (w : world) :
  holds_handle c = false ->
  fst (comm_connect (c, w)) = Ok tt ->
  comm_is_connected (fst (snd (comm_connect (c, w)))) = true
  /\ holds_handle (fst (snd (comm_connect (c, w)))) = true
  /\ count is_open_event (snd (snd (comm_connect (c, w))))
     = S (count is_open_event w)
  /\ count is_open_attempt (snd (snd (comm_connect (c, w))))
     = S (count is_open_attempt w).
Proof.
  destruct c as [o | o | o | o];
    [ destruct o as [? ? ? [[? [|]]|]] | destruct o as [? ? ? [[? [|]]|]]
    | destruct o as [? ? ? [?|]] | destruct o as [? ? [?|] [|]] ];
    cbn; intros Hh; try discriminate;
    unfold_methods; cbn; repeat case_step; intros Hr; try discriminate;
    repeat split; try reflexivity; count_events.
Qed.

(** X2. What a failing [connect()] raises on a transport without a handle:
    the CAN transport always raises [ConnectionError]; the serial transports
    raise [ConnectionError] unless the library raised something that is not
    a [SerialException], and the I2C transport unless it raised something
    that is not an [OSError]; such an exception passes through unchanged. *)
Theorem connect_failure_class (c : transport) (w : world) (e : exc) :
  holds_handle c = false ->
  fst (comm_connect (c, w)) = Raise e ->
  match c with
  | CAN _ => exc_cls e = ConnectionError
  | UART _ | RS485 _ =>
      exc_cls e = ConnectionError \/ isinstance e SerialException = false
  | I2C _ =>
      exc_cls e = ConnectionError \/ isinstance e IOError = false
  end.
Proof.
  destruct c as [o | o | o | o];
    [ destruct o as [? ? ? [[? [|]]|]] | destruct o as [? ? ? [[? [|]]|]]
    | destruct o as [? ? ? [?|]] | destruct o as [? ? [?|] [|]] ];
    cbn; intros Hh; try discriminate;
    unfold_methods; cbn; repeat case_step; intros Hr; try discriminate;
    inversion Hr; subst; cbn; auto; try congruence;
    match goal with
    | Hx : isinstance ?x Exception = false |- _ =>
        pose proof (all_exceptions x); congruence
    end.
Qed.

(** X3. A [send_data] that raises never lets the library's own timeout or
    bus exception out: on the serial transports the exception is not a
    [SerialTimeoutException] (it has become [TimeoutError]), on the CAN
    transport it is not a [CanError] (it has become [IOError]), and on the
    I2C transport every [OSError] has become a plain [IOError]. At most one
    write call was made. *)
Theorem send_translates_library_errors
        (c : transport) (w : world) (data : pystr) (e : exc) :
  comm_is_connected c = true ->
  fst (comm_send_data data (c, w)) = Raise e ->
  match c with
  | UART _ | RS485 _ => isinstance e SerialTimeoutException = false
  | CAN _ => isinstance e CanError = false
  | I2C _ => isinstance e IOError = true -> exc_cls e = IOError
  end
  /\ count is_write_call (snd (snd (comm_send_data data (c, w))))
     <= S (count is_write_call w).
Proof.
  destruct c as [o | o | o | o];
    [ destruct o as [? ? ? [[? [|]]|]] | destruct o as [? ? ? [[? [|]]|]]
    | destruct o as [? ? ? [?|]] | destruct o as [? ? [?|] [|]] ];
    cbn; intros Hc; try discriminate;
    unfold_methods; cbn; repeat case_step; intros Hr; try discriminate;
    inversion Hr; subst; cbn; (split; [| try count_events]);
    auto; try congruence; try reflexivity;
    match goal with
    | Hx : isinstance (mkExc AttributeError _) _ = true |- _ =>
        unfold isinstance in Hx; cbn in Hx; discriminate
    end.
Qed.

(** [read_bytes n] on an object with a bus: the object is unchanged, a list
    that is returned has [n] elements and took [n] library calls, and a
    failure took at least one and at most [n]. *)
Lemma read_bytes_spec (n : nat) :
  forall (o : I2CCommunication.t) (w : world) (h : handle),
    I2CCommunication.bus o = Some h ->
    fst (snd (I2CCommunication.read_bytes n (o, w))) = o
    /\ match fst (I2CCommunication.read_bytes n (o, w)) with
       | Ok l =>
           length l = n
           /\ length (trace (snd (snd (I2CCommunication.read_bytes n (o, w)))))
              = length (trace w) + n
       | Raise _ =>
           length (trace w)
           < length (trace (snd (snd (I2CCommunication.read_bytes n (o, w)))))
           <= length (trace w) + n
       end.
Proof.
  induction n as [|n IH]; intros o w h Hb.
  - cbn. repeat split; lia.
  - cbn [I2CCommunication.read_bytes]. unfold_bodies. cbn. rewrite Hb. cbn.
    destruct (respond (smbus_read_byte h (I2CCommunication.device_address o))
                      (device w)) as [[v | e] d] eqn:Hr; cbn.
    + match goal with
      | |- context [I2CCommunication.read_bytes n (o, ?w1)] =>
          destruct (IH o w1 h Hb) as [Ho Hl];
          destruct (I2CCommunication.read_bytes n (o, w1)) as [[l | e] [o' w']]
      end; cbn in *; rewrite length_app in Hl; cbn in Hl;
        (split; [exact Ho|]); try split; try lia.
    + rewrite length_app. cbn. split; [reflexivity | lia].
Qed.

(** X4. In its default mode the I2C [receive_data(num_bytes)] reads one
    byte per library call: a list it returns has exactly [num_bytes]
    elements and took exactly that many calls, and for [num_bytes <= 0] it
    returns the empty list without touching the bus. *)
Theorem i2c_receive_reads_n_bytes
        (o : I2CCommunication.t) (w : world) (h : handle) (n : Z) :
  I2CCommunication.is_connected o = true ->
  I2CCommunication.bus o = Some h ->
  (forall v,
      fst (I2CCommunication.receive_data n None (o, w)) = Ok v ->
      exists l, v = VList l /\ length l = Z.to_nat n
                /\ length (trace (snd (snd (I2CCommunication.receive_data n None (o, w)))))
                   = length (trace w) + Z.to_nat n)
  /\ ((n <= 0)%Z ->
      I2CCommunication.receive_data n None (o, w) = (Ok (VList []), (o, w))).
Proof.
  intros Hc Hb. unfold I2CCommunication.is_connected in Hc.
  pose proof (read_bytes_spec (Z.to_nat n) o w h Hb) as [Ho Hl].
  split.
  - intros v. unfold I2CCommunication.receive_data.
    unfold try_except, bind, ret, raise, self. cbn.
    unfold I2CCommunication.is_connected. rewrite Hc. cbn.
    destruct (I2CCommunication.read_bytes (Z.to_nat n) (o, w))
      as [[l | e] [o' w']]; cbn in *.
    + intros Hv. inversion Hv; subst. exists l. destruct Hl. auto.
    + destruct (isinstance e IOError || false); cbn; discriminate.
  - intros Hn. unfold I2CCommunication.receive_data.
    unfold try_except, bind, ret, raise, self. cbn.
    unfold I2CCommunication.is_connected. rewrite Hc. cbn.
    replace (Z.to_nat n) with 0 by lia. reflexivity.
Qed.

(** A string has a UTF-8 encoding unless it holds a surrogate (or a number
    that is no code point). *)
Lemma utf8_encode_none (s : pystr) :
  utf8_encode s = None <->
  Exists (fun c => is_surrogate c = true \/ (0x10FFFF < c)%N) s.
Proof.
  induction s as [|c s IH].
  - split; [discriminate | intros Hx; inversion Hx].
  - unfold utf8_encode; fold utf8_encode.
    assert (Hcp : utf8_encode_cp c = None
                  <-> (is_surrogate c = true \/ (0x10FFFF < c)%N)).
    { unfold utf8_encode_cp, is_surrogate.
      destruct (N.ltb_spec c 0x80); [split; [discriminate | intros [Hs|Hs]];
        [apply andb_prop in Hs; destruct Hs as [Hs _]; apply N.leb_le in Hs |]; lia|].
      destruct (N.ltb_spec c 0x800); [split; [discriminate | intros [Hs|Hs]];
        [apply andb_prop in Hs; destruct Hs as [Hs _]; apply N.leb_le in Hs |]; lia|].
      destruct (N.ltb_spec c 0x10000).
      - destruct ((0xD800 <=? c)%N && (c <=? 0xDFFF)%N) eqn:Hs.
        + split; auto.
        + split; [discriminate | intros [Hx|Hx]; [discriminate | lia]].
      - destruct (N.leb_spec c 0x10FFFF).
        + split; [discriminate | intros [Hs|Hs]];
            [apply andb_prop in Hs; destruct Hs as [_ Hs]; apply N.leb_le in Hs |]; lia.
        + split; auto. }
    destruct (utf8_encode_cp c) as [bs|] eqn:Hc.
    + destruct (utf8_encode s) as [rest|] eqn:Hs.
      * split; [discriminate|]. intros Hx. inversion Hx; subst.
        -- apply Hcp in H0. discriminate.
        -- apply IH in H0. discriminate.
      * split; auto. intros _. apply Exists_cons_tl. now apply IH.
    + split; auto. intros _. apply Exists_cons_hd. now apply Hcp.
Qed.

(** X5. A payload that has no UTF-8 encoding (it holds a lone surrogate)
    makes [send_data] of the serial and CAN transports raise
    [UnicodeEncodeError] before any library call; the I2C transport, which
    sends code points, does not raise it. *)
Theorem unencodable_payload_is_not_sent
        (c : transport) (w : world) (data : pystr) :
  comm_is_connected c = true ->
  Exists (fun c => is_surrogate c = true \/ (0x10FFFF < c)%N) data ->
  match c with
  | I2C _ =>
      holds_handle c = true ->
      count is_write_call (snd (snd (comm_send_data data (c, w))))
      = S (count is_write_call w)
  | _ =>
      (exists msg, fst (comm_send_data data (c, w))
                   = Raise (mkExc UnicodeEncodeError msg))
      /\ snd (comm_send_data data (c, w)) = (c, w)
  end.
Proof.
  intros Hc Hx. apply utf8_encode_none in Hx.
  destruct c as [o | o | o | o];
    [ destruct o as [? ? ? [[? [|]]|]] | destruct o as [? ? ? [[? [|]]|]]
    | destruct o as [? ? ? [?|]] | destruct o as [? ? [?|] [|]] ];
    cbn in Hc; try discriminate;
    unfold_methods; cbn; rewrite ?Hx; cbn;
    try (split; [eexists; reflexivity | reflexivity]);
    try (intros Hh; discriminate Hh);
    intros _; apply utf8_encode_none in Hx; destruct data as [|c0 data];
    [inversion Hx | cbn; repeat case_step; count_events].
Qed.

Lemma holds_on_sound (P : N -> bool) (k : nat) :
  forall lo, holds_on P k lo = true ->
             forall c, (lo <= c < lo + 2 ^ N.of_nat k)%N -> P c = true.
Proof.
  induction k as [|k IH]; intros lo Hh c Hc.
  - cbn in *. replace c with lo by lia. exact Hh.
  - cbn [holds_on] in Hh.
    destruct (holds_on P k lo) eqn:H1; [|discriminate].
    rewrite Nat2N.inj_succ, N.pow_succ_r' in Hc.
    destruct (N.lt_ge_cases c (lo + 2 ^ N.of_nat k)) as [Hlt | Hge].
    + apply (IH lo H1). lia.
    + apply (IH _ Hh). lia.
Qed.

(** Every code point is read back from its encoding. *)
Lemma reads_back_all (c : N) : reads_back c = true.
Proof.
  destruct (N.lt_ge_cases c 0x100000) as [H1 | H1].
  - apply (holds_on_sound reads_back 20 0);
      [vm_cast_no_check (eq_refl true) | cbn; lia].
  - destruct (N.lt_ge_cases c 0x110000) as [H2 | H2].
    + apply (holds_on_sound reads_back 16 0x100000);
        [vm_compute; reflexivity | cbn; lia].
    + unfold reads_back, utf8_encode_cp.
      destruct (N.ltb_spec c 0x80); [lia|].
      destruct (N.ltb_spec c 0x800); [lia|].
      destruct (N.ltb_spec c 0x10000); [lia|].
      destruct (N.leb_spec c 0x10FFFF); [lia|]. reflexivity.
Qed.

(** One step of the decoder. *)
Lemma decode_cons (c1 : byte) (r1 : bytes) :
  utf8_decode_ignore (c1 :: r1)
  = let b1 := Byte.to_N c1 in
    if (b1 <? 0x80)%N then b1 :: utf8_decode_ignore r1
    else if (b1 <? 0xC2)%N then utf8_decode_ignore r1
    else if (b1 <? 0xE0)%N then
      match r1 with
      | [] => []
      | c2 :: r2 =>
          let b2 := Byte.to_N c2 in
          if is_cont b2
          then (N.shiftl (N.land b1 0x1F) 6 + low6 b2)%N :: utf8_decode_ignore r2
          else utf8_decode_ignore r1
      end
    else if (b1 <? 0xF0)%N then
      match r1 with
      | [] => []
      | c2 :: r2 =>
          let b2 := Byte.to_N c2 in
          if negb (ok2_of3 b1 b2) then utf8_decode_ignore r1
          else
            match r2 with
            | [] => []
            | c3 :: r3 =>
                let b3 := Byte.to_N c3 in
                if is_cont b3
                then (N.shiftl (N.land b1 0x0F) 12 + N.shiftl (low6 b2) 6 + low6 b3)%N
                       :: utf8_decode_ignore r3
                else utf8_decode_ignore r2
            end
      end
    else if (b1 <? 0xF5)%N then
      match r1 with
      | [] => []
      | c2 :: r2 =>
          let b2 := Byte.to_N c2 in
          if negb (ok2_of4 b1 b2) then utf8_decode_ignore r1
          else
            match r2 with
            | [] => []
            | c3 :: r3 =>
                let b3 := Byte.to_N c3 in
                if negb (is_cont b3) then utf8_decode_ignore r2
                else
                  match r3 with
                  | [] => []
                  | c4 :: r4 =>
                      let b4 := Byte.to_N c4 in
                      if is_cont b4
                      then (N.shiftl (N.land b1 0x07) 18 + N.shiftl (low6 b2) 12
                            + N.shiftl (low6 b3) 6 + low6 b4)%N
                             :: utf8_decode_ignore r4
                      else utf8_decode_ignore r3
                  end
            end
      end
    else utf8_decode_ignore r1.
Proof. reflexivity. Qed.

(** The encoding of one code point, followed by anything, decodes to that
    code point followed by the decoding of the rest. *)
Lemma decode_encoded_cp (c : N) (bs rest : bytes) :
  utf8_encode_cp c = Some bs ->
  utf8_decode_ignore (bs ++ rest) = c :: utf8_decode_ignore rest.
Proof.
  intros He. pose proof (reads_back_all c) as Hr.
  unfold reads_back in Hr. rewrite He in Hr.
  apply andb_prop in Hr. destruct Hr as [_ Hr].
  destruct bs as [|c1 [|c2 [|c3 [|c4 [|c5 bs]]]]]; cbn [map] in Hr;
    try discriminate; cbn [List.app]; rewrite decode_cons; cbv zeta;
    repeat match type of Hr with
           | (_ && _) = true => apply andb_prop in Hr; destruct Hr as [Hr ?]
           end;
    repeat match goal with
           | Hx : negb _ = true |- _ => apply negb_true_iff in Hx
           | Hx : (_ =? _)%N = true |- _ => apply N.eqb_eq in Hx
           end.
  - rewrite Hr. congruence.
  - assert (Hlt : (Byte.to_N c1 <? 0x80)%N = false).
    { apply N.ltb_ge. apply N.ltb_ge in Hr. lia. }
    rewrite Hlt, Hr. 
    repeat match goal with Hx : _ = true |- _ => rewrite Hx end.
    congruence.
  - assert (Hlt : (Byte.to_N c1 <? 0x80)%N = false).
    { apply N.ltb_ge. apply N.ltb_ge in Hr. lia. }
    assert (Hlt2 : (Byte.to_N c1 <? 0xC2)%N = false).
    { apply N.ltb_ge. apply N.ltb_ge in Hr. lia. }
    rewrite Hlt, Hlt2, Hr.
    repeat match goal with Hx : _ = true |- _ => rewrite Hx end.
    cbn [negb]. congruence.
  - assert (Hlt : (Byte.to_N c1 <? 0x80)%N = false).
    { apply N.ltb_ge. apply N.ltb_ge in Hr. lia. }
    assert (Hlt2 : (Byte.to_N c1 <? 0xC2)%N = false).
    { apply N.ltb_ge. apply N.ltb_ge in Hr. lia. }
    assert (Hlt3 : (Byte.to_N c1 <? 0xE0)%N = false).
    { apply N.ltb_ge. apply N.ltb_ge in Hr. lia. }
    rewrite Hlt, Hlt2, Hlt3, Hr.
    repeat match goal with Hx : _ = true |- _ => rewrite Hx end.
    cbn [negb]. congruence.
Qed.

(** The bytes of a string, followed by any other bytes, decode to that
    string followed by the decoding of the other bytes. *)
Lemma utf8_decode_encoded (s : pystr) :
  forall bs rest,
    utf8_encode s = Some bs ->
    utf8_decode_ignore (bs ++ rest) = s ++ utf8_decode_ignore rest.
Proof.
  induction s as [|c s IH]; intros bs rest He.
  - cbn in He. inversion He. reflexivity.
  - unfold utf8_encode in He; fold utf8_encode in He.
    destruct (utf8_encode_cp c) as [b1|] eqn:Hc; [|discriminate].
    destruct (utf8_encode s) as [b2|] eqn:Hs; [|discriminate].
    inversion He; subst. rewrite <- app_assoc.
    rewrite (decode_encoded_cp c b1 _ Hc). cbn. f_equal. now apply IH.
Qed.

(** Decoding inverts encoding: what [str.encode('utf-8')] returns for a
    string, [bytes.decode('utf-8', errors='ignore')] turns back into that
    string, and into nothing shorter or longer. *)
Lemma utf8_round_trip (s : pystr) (bs : bytes) :
  utf8_encode s = Some bs ->
  utf8_decode_ignore bs = s /\ length s <= length bs.
Proof.
  intros He. split.
  - pose proof (utf8_decode_encoded s bs [] He) as Hd.
    rewrite !app_nil_r in Hd. exact Hd.
  - revert bs He. induction s as [|c s IH]; intros bs He; [cbn; lia|].
    unfold utf8_encode in He; fold utf8_encode in He.
    destruct (utf8_encode_cp c) as [b1|] eqn:Hc; [|discriminate].
    destruct (utf8_encode s) as [b2|] eqn:Hs; [|discriminate].
    inversion He; subst. rewrite length_app. cbn.
    specialize (IH _ eq_refl).
    assert (1 <= length b1); [|lia].
    unfold utf8_encode_cp in Hc.
    repeat match type of Hc with
           | (if ?b then _ else _) = _ => destruct b
           end; inversion Hc; cbn; lia.
Qed.

Lemma utf8_encode_app (s1 s2 : pystr) :
  utf8_encode (s1 ++ s2)
  = match utf8_encode s1, utf8_encode s2 with
    | Some b1, Some b2 => Some (b1 ++ b2)
    | _, _ => None
    end.
Proof.
  induction s1 as [|c s1 IH].
  - cbn. destruct (utf8_encode s2); reflexivity.
  - cbn [List.app]. unfold utf8_encode; fold utf8_encode. rewrite IH.
    destruct (utf8_encode_cp c), (utf8_encode s1), (utf8_encode s2);
      try reflexivity. now rewrite app_assoc.
Qed.

(** Only the line feed is encoded with a line-feed byte. *)
Lemma encoded_without_newline (s : pystr) :
  forall bs, utf8_encode s = Some bs -> ~ In 10%N s ->
             Forall (fun b => Byte.eqb b x0a = false) bs.
Proof.
  induction s as [|c s IH]; intros bs He Hn.
  - cbn in He. inversion He. constructor.
  - unfold utf8_encode in He; fold utf8_encode in He.
    destruct (utf8_encode_cp c) as [b1|] eqn:Hc; [|discriminate].
    destruct (utf8_encode s) as [b2|] eqn:Hs; [|discriminate].
    inversion He; subst. apply Forall_app. split.
    + pose proof (reads_back_all c) as Hr. unfold reads_back in Hr.
      rewrite Hc in Hr. apply andb_prop in Hr. destruct Hr as [Hr _].
      apply orb_prop in Hr. destruct Hr as [Hr | Hr].
      * apply N.eqb_eq in Hr. subst. exfalso. apply Hn. now left.
      * apply Forall_forall. intros b Hb.
        rewrite forallb_forall in Hr. apply Hr in Hb.
        now apply negb_true_iff in Hb.
    + apply IH; auto. intros Hi. apply Hn. now right.
Qed.

Lemma split_line_app (bs tail : bytes) :
  Forall (fun b => Byte.eqb b x0a = false) bs ->
  Loopback.split_line (bs ++ x0a :: tail) = (bs ++ [x0a], tail).
Proof.
  induction 1 as [|b bs Hb Hf IH]; cbn.
  - reflexivity.
  - rewrite Hb, IH. reflexivity.
Qed.

Lemma lstrip_app (s t : pystr) :
  lstrip (s ++ t) = if forallb isspace s then lstrip t else lstrip s ++ t.
Proof.
  induction s as [|c s IH]; cbn; [reflexivity|].
  destruct (isspace c); cbn; [exact IH | reflexivity].
Qed.

Lemma lstrip_all_space (s : pystr) : forallb isspace s = true -> lstrip s = [].
Proof.
  induction s as [|c s IH]; cbn; [reflexivity|].
  destruct (isspace c); cbn; [exact IH | discriminate].
Qed.

(** A trailing line feed does not change what [strip()] returns. *)
Lemma strip_newline (s : pystr) : strip (s ++ [10%N]) = strip s.
Proof.
  unfold strip, rstrip. rewrite lstrip_app.
  destruct (forallb isspace s) eqn:Hs.
  - rewrite (lstrip_all_space s Hs). reflexivity.
  - rewrite rev_app_distr. cbn. reflexivity.
Qed.

Lemma lstrip_suffix (s : pystr) :
  exists p, s = p ++ lstrip s /\ forallb isspace p = true.
Proof.
  induction s as [|c s (p & Hp & Ha)]; cbn.
  - exists []. auto.
  - destruct (isspace c) eqn:Hc.
    + exists (c :: p). cbn. rewrite Hc, Ha. split; [f_equal; exact Hp | reflexivity].
    + exists []. auto.
Qed.

Lemma lstrip_head (s : pystr) :
  match lstrip s with
  | [] => True
  | c :: _ => isspace c = false
  end.
Proof.
  induction s as [|c s IH]; cbn; [exact I|].
  destruct (isspace c) eqn:Hc; [exact IH | exact Hc].
Qed.

(** What [strip()] returns neither begins nor ends with whitespace. *)
Lemma strip_trimmed (s : pystr) : trimmed (strip s) = true.
Proof.
  unfold strip, rstrip, trimmed.
  pose proof (lstrip_head s) as Ht.
  pose proof (lstrip_head (rev (lstrip s))) as Hu.
  destruct (lstrip_suffix (rev (lstrip s))) as (p & Hp & _).
  remember (lstrip (rev (lstrip s))) as u eqn:Hequ.
  destruct (rev u) as [|c l] eqn:Hr; [reflexivity|].
  rewrite <- Hr, rev_involutive.
  destruct u as [|z u']; [reflexivity|].
  apply (f_equal (@rev N)) in Hp. rewrite rev_involutive, rev_app_distr, Hr in Hp.
  rewrite Hp in Ht. cbn in Ht. rewrite Ht, Hu. reflexivity.
Qed.

Lemma strip_of_trimmed (s : pystr) : trimmed s = true -> strip s = s.
Proof.
  unfold trimmed, strip, rstrip. intros Ht.
  destruct s as [|c s]; [reflexivity|].
  destruct (rev (c :: s)) as [|z r] eqn:Hr.
  - apply (f_equal (@length N)) in Hr. rewrite length_rev in Hr. discriminate.
  - apply andb_prop in Ht. destruct Ht as [Hc Hz].
    apply negb_true_iff in Hc, Hz.
    cbn [lstrip]. rewrite Hc, Hr. cbn [lstrip]. rewrite Hz.
    rewrite <- Hr. apply rev_involutive.
Qed.

(** X6. What [receive_data] of the serial transports returns is a string
    that neither begins nor ends with whitespace, whatever bytes the port
    delivered. *)
Theorem serial_receive_is_trimmed (w : world) :
  (forall o n v,
      fst (UARTCommunication.receive_data n (o, w)) = Ok v ->
      exists s, v = VStr s /\ trimmed s = true /\ strip s = s)
  /\ (forall o v,
         fst (RS485Communication.receive_data (o, w)) = Ok v ->
         exists s, v = VStr s /\ trimmed s = true /\ strip s = s).
Proof.
  split; [intros o n v | intros o v];
    [ destruct o as [? ? ? [[? [|]]|]];
      (destruct n as [z|]; [destruct (Z.eqb z 0) eqn:Hz|])
    | destruct o as [? ? ? [[? [|]]|]] ];
    unfold_methods; cbn; rewrite ?Hz; repeat case_step; intros Hv;
    try discriminate; inversion Hv; subst;
    eexists; (split; [reflexivity|]);
    (split; [apply strip_trimmed | apply strip_of_trimmed, strip_trimmed]).
Qed.

(** X7. [connect_device] never raises and has one of two outcomes. On any
    failure (a field that is not a number, a [connect()] that raises) it
    leaves [comm_instance] at [None], creates no worker or thread, leaves the
    buttons as they were and reports with one log line and one message box.
    Otherwise [comm_instance] is the new transport, which is connected and
    holds its handle, a worker bound to it has been created with its thread
    started, and the success line is logged. *)
Theorem connect_device_outcome (f : form) (a : app) :
  fst (connect_device f a) = Ok tt
  /\ (let a' := snd (connect_device f a) in
      (comm_instance a' = None
       /\ receivers a' = receivers a
       /\ next_receiver a' = next_receiver a
       /\ comm_worker a' = comm_worker a
       /\ worker_thread a' = worker_thread a
       /\ ui_connected a' = ui_connected a
       /\ queue a' = queue a
       /\ length (log_display a') = S (length (log_display a))
       /\ length (dialogs a') = S (length (dialogs a)))
      \/
      (comm_instance a' = Some (next_obj a)
       /\ comm_is_connected (heap a' (next_obj a)) = true
       /\ holds_handle (heap a' (next_obj a)) = true
       /\ comm_worker a' = Some (next_receiver a)
       /\ worker_thread a' = Some (next_receiver a)
       /\ receivers a' (next_receiver a) = mkReceiver (next_obj a) true PStart false
       /\ ui_connected a' = true
       /\ queue a' = queue a
       /\ dialogs a' = dialogs a
       /\ log_display a'
          = log_display a
              ++ [lit "[" ++ protocol_text (protocol_combo f)
                      ++ lit "] Connected successfully."])).
Proof.
  destruct a as [hp no rs nr w q ci wt cw lg ui dl].
  connect_cases f;
    unfold connect_device, build, new_comm_instance, invoke, start_worker,
      log, message_box, try_except, bind, ret, modify; cbn;
    rewrite ?upd_same; unfold_methods; cbn;
    repeat (rewrite ?all_exceptions; cbn; case_step);
    rewrite ?all_exceptions; cbn; rewrite ?upd_same;
    (split; [reflexivity|]);
    first [ left; repeat split; try reflexivity; rewrite length_app; cbn; lia
          | right; repeat split; reflexivity ].
Qed.

Lemma wait_some_finished (fuel : nat) :
  forall (i : nat) (a a' : app), wait fuel i a = Some a' -> finished i a' = true.
Proof.
  induction fuel as [|fuel IH]; intros i a a' Hw; cbn in Hw;
    destruct (finished i a) eqn:Hf; try discriminate.
  - inversion Hw; subst. exact Hf.
  - inversion Hw; subst. exact Hf.
  - eapply IH; eauto.
Qed.

Lemma wait_reaches (n : nat) :
  forall (i : nat) (a : app),
    finished i (run_steps n i a) = true ->
    forall fuel, n <= fuel -> exists a', wait fuel i a = Some a'.
Proof.
  induction n as [|n IH]; intros i a Hf fuel Hle.
  - cbn in Hf. exists a. destruct fuel; cbn; rewrite Hf; reflexivity.
  - destruct fuel as [|fuel]; [lia|]. cbn [wait].
    destruct (finished i a); [eauto|].
    apply IH; [exact Hf | lia].
Qed.

Lemma run_steps_quit (n : nat) :
  forall (i : nat) (a : app),
    quit_requested (receivers (run_steps n i a) i) = quit_requested (receivers a i).
Proof.
  induction n as [|n IH]; intros i a; [reflexivity|].
  cbn [run_steps]. rewrite IH.
  pose proof (run_step_spec a i) as S. cbv zeta in S.
  destruct (pc (receivers a i)).
  - destruct S as (R & _). now rewrite R.
  - destruct S as (R & _). now rewrite R.
  - destruct (comm_receive_data _) as [[v | e] [o' w']];
      destruct S as (R & _); now rewrite R.
  - destruct S as (R & _). now rewrite R.
  - destruct S as (R & _). now rewrite R.
  - now rewrite S.
Qed.

(** X8. Once [run] has begun, [disconnect_device] returns: the wait for
    the thread ends within four steps of the thread, leaving the worker's
    flag cleared and the thread finished. *)
Theorem disconnect_device_returns (a : app) (i fuel : nat) :
  comm_worker a = Some i ->
  worker_thread a = Some i ->
  pc (receivers a i) <> PStart ->
  4 <= fuel ->
  exists r a',
    disconnect_device fuel a = Some (r, a')
    /\ finished i a' = true
    /\ _is_running (receivers a' i) = false.
Proof.
  intros Hcw Hwt Hp Hf.
  unfold disconnect_device. rewrite Hcw.
  assert (Hwt' : worker_thread (stop i a) = Some i).
  { destruct a; cbn in *. exact Hwt. }
  rewrite Hwt'.
  destruct (stop_spec a i) as (R & _).
  assert (Rq : receivers (quit i (stop i a)) i
               = mkReceiver (comm (receivers a i)) false (pc (receivers a i)) true).
  { unfold quit. destruct (stop i a) as [hp no rs nr w q ci wt cw lg ui dl].
    cbn in *. rewrite upd_same, R. reflexivity. }
  assert (Hrun : _is_running (receivers (quit i (stop i a)) i) = false)
    by now rewrite Rq.
  assert (Hpc : pc (receivers (quit i (stop i a)) i) <> PStart) by now rewrite Rq.
  destruct (stopped_steps 4 (quit i (stop i a)) i Hrun Hpc) as (Hs & _).
  cbv zeta in Hs.
  assert (Hfin : finished i (run_steps 4 i (quit i (stop i a))) = true).
  { unfold finished. rewrite run_steps_quit, Rq. cbn [quit_requested].
    rewrite Rq in Hs. cbn [pc] in Hs.
    assert (H4 : steps_left (pc (receivers a i)) <= 4).
    { destruct (pc (receivers a i)) eqn:Hpa; cbn; try lia. congruence. }
    destruct (pc (receivers (run_steps 4 i (quit i (stop i a))) i)) eqn:Hq;
      try reflexivity; rewrite ?Hq in Hs; cbn [steps_left] in Hs; lia. }
  destruct (wait_reaches 4 i _ Hfin fuel Hf) as [a2 Hw].
  rewrite Hw.
  pose proof (wait_some_finished fuel i _ a2 Hw) as Hf2.
  assert (Hrun2 : _is_running (receivers a2 i) = false).
  { clear Hf2 Hfin Hs Hf. revert Hw Hrun Hpc. generalize (quit i (stop i a)).
    induction fuel as [|fuel IH]; intros a0 Hw Hrun Hpc; cbn in Hw;
      destruct (finished i a0); try discriminate;
      try (inversion Hw; subst; exact Hrun).
    destruct (stopped_step a0 i Hrun Hpc) as (Hr1 & Hp1 & _).
    eapply IH; eauto. }
  unfold finished in Hf2.
  destruct a2 as [hp no rs nr w q ci wt cw lg ui dl]. cbn in Hf2, Hrun2.
  unfold invoke, log, modify, bind, ret. cbn.
  destruct ci as [l|]; cbn.
  - destruct (comm_disconnect (hp l, w)) as [[[] | e] [o' w']]; cbn;
      do 2 eexists; (split; [reflexivity|]); unfold finished; cbn; auto.
  - do 2 eexists. split; [reflexivity|]. unfold finished; cbn; auto.
Qed.

Lemma send_keeps_object (c : transport) (w : world) (data : pystr) :
  fst (snd (comm_send_data data (c, w))) = c.
Proof.
  destruct c as [o | o | o | o];
    [ destruct o as [? ? ? [[? [|]]|]] | destruct o as [? ? ? [[? [|]]|]]
    | destruct o as [? ? ? [?|]] | destruct o as [? ? [?|] [|]] ];
    unfold_methods; cbn; repeat case_step; reflexivity.
Qed.

(** The body the two send commands share: the guard, the call of
    [send_data], the two log lines. *)
Lemma send_command_spec (command prefix : pystr) (a : app) :
  let m : M app unit :=
    fun a =>
      if cannot_send a then log (lit "Not connected. Cannot send data.") a
      else
        try_except
          (match comm_instance a with
           | Some l => invoke l (comm_send_data command)
           | None => (fun a0 => (Raise (mkExc AttributeError (lit "'NoneType' object has no attribute 'send_data'")), a0))
           end ;;
           log (lit "Sent: " ++ strip command))
          [Exception]
          (fun e => log (prefix ++ exc_msg e)) a in
  let a' := snd (m a) in
  fst (m a) = Ok tt
  /\ length (log_display a') = S (length (log_display a))
  /\ comm_instance a' = comm_instance a
  /\ receivers a' = receivers a
  /\ queue a' = queue a
  /\ dialogs a' = dialogs a
  /\ (forall l, heap a' l = heap a l)
  /\ match comm_instance a with
     | Some l =>
         if comm_is_connected (heap a l)
         then wld a' = snd (snd (comm_send_data command (heap a l, wld a)))
         else wld a' = wld a
     | None => wld a' = wld a
     end.
Proof.
  destruct a as [hp no rs nr w q ci wt cw lg ui dl].
  cbv zeta. unfold cannot_send. cbn [comm_instance heap log_display receivers queue dialogs wld].
  destruct ci as [l|];
    [ destruct (comm_is_connected (hp l)) eqn:Hc; cbn [negb] | ].
  - unfold try_except, bind, invoke, log, modify. cbn.
    pose proof (send_keeps_object (hp l) w command) as Hk.
    destruct (comm_send_data command (hp l, w)) as [[[] | e] [o' w']];
      cbn in *; subst o'; rewrite ?all_exceptions; cbn;
      rewrite length_app; cbn;
      repeat split; auto; try lia;
      intros l'; unfold upd; destruct (Nat.eqb l' l) eqn:Hll; auto;
      apply Nat.eqb_eq in Hll; now subst.
  - unfold log, modify. cbn. rewrite length_app. cbn.
    repeat split; auto. lia.
  - unfold log, modify. cbn. rewrite length_app. cbn.
    repeat split; auto. lia.
Qed.

(** X9. [send_pid_data] and [send_custom_data] never raise and add
    exactly one line to the log. Without a connected transport nothing
    reaches the devices; with one, the world is what [send_data] leaves when
    called once with ["PID,kp,ki,kd\n"] (or the data followed by a line
    feed). Neither changes the session: transport objects, workers, pending
    signals and message boxes are as before. *)
Theorem send_commands_never_raise (a : app) :
  (forall kp ki kd,
      let command := lit "PID," ++ kp ++ lit "," ++ ki ++ lit "," ++ kd ++ [10%N] in
      let a' := snd (send_pid_data kp ki kd a) in
      fst (send_pid_data kp ki kd a) = Ok tt
      /\ length (log_display a') = S (length (log_display a))
      /\ comm_instance a' = comm_instance a
      /\ receivers a' = receivers a
      /\ queue a' = queue a
      /\ dialogs a' = dialogs a
      /\ (forall l, heap a' l = heap a l)
      /\ match comm_instance a with
         | Some l =>
             if comm_is_connected (heap a l)
             then wld a' = snd (snd (comm_send_data command (heap a l, wld a)))
             else wld a' = wld a
         | None => wld a' = wld a
         end)
  /\ (forall data,
         let command := data ++ [10%N] in
         let a' := snd (send_custom_data data a) in
         fst (send_custom_data data a) = Ok tt
         /\ length (log_display a') = S (length (log_display a))
         /\ comm_instance a' = comm_instance a
         /\ receivers a' = receivers a
         /\ queue a' = queue a
         /\ dialogs a' = dialogs a
         /\ (forall l, heap a' l = heap a l)
         /\ match comm_instance a with
            | Some l =>
                if comm_is_connected (heap a l)
                then wld a' = snd (snd (comm_send_data command (heap a l, wld a)))
                else wld a' = wld a
            | None => wld a' = wld a
            end).
Proof.
  split; [intros kp ki kd | intros data].
  - exact (send_command_spec
             (lit "PID," ++ kp ++ lit "," ++ ki ++ lit "," ++ kd ++ [10%N])
             (lit "Error sending PID data: ") a).
  - exact (send_command_spec (data ++ [10%N]) (lit "Error sending custom data: ") a).
Qed.

(** X10. A non-empty result of [receive_data()] is emitted exactly once, as
    [str(data)], and the worker is back at the loop test three steps
    later. *)
Theorem worker_emits_result_once
        (a : app) (i : nat) (v : pyval) (o' : transport) (w' : world) :
  pc (receivers a i) = PReceive ->
  comm_receive_data (heap a (comm (receivers a i)), wld a) = (Ok v, (o', w')) ->
  truthy v = true ->
  queue (run_steps 3 i a) = queue a ++ [data_received (str v)]
  /\ pc (receivers (run_steps 3 i a) i) = PTest
  /\ wld (run_steps 3 i a) = w'.
Proof.
  intros Hpc Hrecv Hv.
  change (run_steps 3 i a) with (run_step i (run_step i (run_step i a))).
  pose proof (run_step_spec a i) as S1. cbv zeta in S1.
  rewrite Hpc, Hrecv in S1. destruct S1 as (R1 & Q1 & W1).
  pose proof (run_step_spec (run_step i a) i) as S2. cbv zeta in S2.
  rewrite R1 in S2. cbn in S2. rewrite Hv in S2. destruct S2 as (R2 & Q2 & W2).
  pose proof (run_step_spec (run_step i (run_step i a)) i) as S3. cbv zeta in S3.
  rewrite R2 in S3. cbn in S3. destruct S3 as (R3 & Q3 & W3).
  rewrite R3, Q3, Q2, Q1, W3, W2, W1. cbn. auto.
Qed.

(** X11. The worker only appends to the queue of signals: whatever was
    waiting for delivery stays there, in the same order, however many steps
    the worker takes. *)
Theorem signals_keep_their_order (n : nat) :
  forall (i : nat) (a : app),
    exists l, queue (run_steps n i a) = queue a ++ l.
Proof.
  induction n as [|n IH]; intros i a.
  - exists []. cbn. now rewrite app_nil_r.
  - cbn [run_steps]. destruct (IH i (run_step i a)) as [l Hl]. rewrite Hl.
    pose proof (run_step_spec a i) as S. cbv zeta in S.
    destruct (pc (receivers a i)) as [ | | | v | | ].
    + destruct S as (_ & Q & _). rewrite Q. eauto.
    + destruct S as (_ & Q & _). rewrite Q. eauto.
    + destruct (comm_receive_data _) as [[v | e] [o' w']];
        destruct S as (_ & Q & _); rewrite Q; [eauto|].
      rewrite <- app_assoc. eauto.
    + destruct S as (_ & Q & _). rewrite Q.
      destruct (truthy v); [rewrite <- app_assoc|]; eauto.
    + destruct S as (_ & Q & _). rewrite Q. eauto.
    + rewrite S. eauto.
Qed.

(** X12. [send_parameters] hands ["PARAMS,yaw,roll,dist"] to
    [send_custom_data] and then shows its success message in every case:
    also when nothing is connected, where nothing has been sent. *)
Theorem send_parameters_always_reports_success (a : app) (yaw roll dist : pystr) :
  let command := lit "PARAMS," ++ yaw ++ lit "," ++ roll ++ lit "," ++ dist in
  let a' := snd (send_parameters yaw roll dist a) in
  fst (send_parameters yaw roll dist a) = Ok tt
  /\ dialogs a'
     = dialogs a ++ [(lit "Success",
                      [0x53C2; 0x6570; 0x5DF2; 0x53D1; 0x9001; 0xFF01]%N
                        ++ lit " (Parameters sent!)")]
  /\ wld a' = wld (snd (send_custom_data command a))
  /\ (cannot_send a = true -> wld a' = wld a).
Proof.
  cbv zeta. unfold send_parameters, bind, message_box, modify.
  match goal with
  | |- context [send_custom_data ?cmd a] =>
      pose proof (send_command_spec (cmd ++ [10%N])
                    (lit "Error sending custom data: ") a) as Hc;
      cbv zeta in Hc;
      change (fst (send_custom_data cmd a) = Ok tt
              /\ length (log_display (snd (send_custom_data cmd a)))
                 = S (length (log_display a))
              /\ comm_instance (snd (send_custom_data cmd a)) = comm_instance a
              /\ receivers (snd (send_custom_data cmd a)) = receivers a
              /\ queue (snd (send_custom_data cmd a)) = queue a
              /\ dialogs (snd (send_custom_data cmd a)) = dialogs a
              /\ (forall l, heap (snd (send_custom_data cmd a)) l = heap a l)
              /\ match comm_instance a with
                 | Some l =>
                     if comm_is_connected (heap a l)
                     then wld (snd (send_custom_data cmd a))
                          = snd (snd (comm_send_data (cmd ++ [10%N]) (heap a l, wld a)))
                     else wld (snd (send_custom_data cmd a)) = wld a
                 | None => wld (snd (send_custom_data cmd a)) = wld a
                 end) in Hc;
      destruct Hc as (H1 & H2 & H3 & H4 & H5 & H6 & H7 & H8);
      destruct (send_custom_data cmd a) as [r a1] eqn:Hs
  end.
  cbn in *. subst r.
  destruct a1 as [hp1 no1 rs1 nr1 w1 q1 ci1 wt1 cw1 lg1 ui1 dl1]; cbn in *. subst.
  repeat split; try reflexivity.
  intros Hcs. unfold cannot_send in Hcs.
  destruct (comm_instance a) as [l|]; [|exact H8].
  destruct (comm_is_connected (heap a l)); [discriminate | exact H8].
Qed.

Lemma stop_quit_comm (i j : nat) (a : app) :
  comm (receivers (stop j a) i) = comm (receivers a i)
  /\ comm (receivers (quit j a) i) = comm (receivers a i).
Proof.
  destruct a as [hp no rs nr w q ci wt cw lg ui dl].
  unfold stop, quit. cbn. unfold upd.
  destruct (Nat.eqb i j) eqn:Hij; cbn; auto.
  apply Nat.eqb_eq in Hij. subst. auto.
Qed.

Lemma run_step_comm (j : nat) (a : app) :
  forall i, comm (receivers (run_step j a) i) = comm (receivers a i).
Proof.
  intros i. destruct a as [hp no rs nr w q ci wt cw lg ui dl].
  unfold run_step, invoke. cbn.
  destruct (rs j) as [l run p qr] eqn:Hr. cbn.
  assert (Hu : forall x hp' w' q',
             comm x = l ->
             comm (receivers (set_receiver j x (mkApp hp' no rs nr w' q' ci wt cw lg ui dl)) i)
             = comm (rs i)).
  { intros x hp' w' q' Hx. cbn. unfold upd.
    destruct (Nat.eqb i j) eqn:Hij; [|reflexivity].
    apply Nat.eqb_eq in Hij. subst. now rewrite Hr. }
  destruct p as [ | | | v | | ]; cbn [pc]; try (apply Hu; reflexivity);
    try reflexivity.
  - destruct (comm_receive_data (hp l, w)) as [[v | e] [o' w']]; cbn.
    + apply (Hu _ (upd hp l o') w' q). reflexivity.
    + destruct (isinstance e Exception); apply Hu + apply (Hu _ (upd hp l o') w' q);
        reflexivity.
  - destruct (truthy v); apply Hu; reflexivity.
Qed.

Lemma wait_comm (fuel : nat) :
  forall (j : nat) (a a' : app),
    wait fuel j a = Some a' ->
    comm_worker a' = comm_worker a /\ worker_thread a' = worker_thread a
    /\ comm_instance a' = comm_instance a
    /\ forall i, comm (receivers a' i) = comm (receivers a i).
Proof.
  induction fuel as [|fuel IH]; intros j a a' Hw; cbn in Hw;
    destruct (finished j a); try discriminate;
    try (inversion Hw; subst; auto).
  destruct (IH _ _ _ Hw) as (H1 & H2 & H3 & H4).
  destruct (run_step_frame a j) as (F1 & F2 & F3 & _).
  rewrite H1, H2, H3, F1, F2, F3. repeat split; auto.
  intros i. rewrite H4. apply run_step_comm.
Qed.

Lemma disconnect_device_spec (fuel : nat) (a : app) (r : result unit) (a1 : app) :
  disconnect_device fuel a = Some (r, a1) ->
  comm_worker a1 = comm_worker a
  /\ worker_thread a1 = worker_thread a
  /\ (forall i, worker_thread a = Some i -> finished i a1 = true)
  /\ (forall i, comm (receivers a1 i) = comm (receivers a i))
  /\ (r = Ok tt -> comm_instance a1 = None /\ ui_connected a1 = false)
  /\ (r <> Ok tt -> comm_instance a1 = comm_instance a).
Proof.
  unfold disconnect_device. intros Hd.
  set (a0 := match comm_worker a with Some i => stop i a | None => a end) in *.
  assert (H0 : comm_worker a0 = comm_worker a /\ worker_thread a0 = worker_thread a
               /\ comm_instance a0 = comm_instance a
               /\ forall i, comm (receivers a0 i) = comm (receivers a i)).
  { unfold a0. destruct (comm_worker a) as [j|] eqn:Hcw; [|auto].
    rewrite <- Hcw. repeat split; try (destruct a; reflexivity).
    intros i. apply stop_quit_comm. }
  destruct H0 as (C0 & T0 & I0 & M0).
  destruct (match worker_thread a0 with
            | Some i => wait fuel i (quit i a0)
            | None => Some a0
            end) as [a2|] eqn:Hw; [|discriminate].
  assert (H2 : comm_worker a2 = comm_worker a /\ worker_thread a2 = worker_thread a
               /\ comm_instance a2 = comm_instance a
               /\ (forall i, comm (receivers a2 i) = comm (receivers a i))
               /\ (forall i, worker_thread a = Some i -> finished i a2 = true)).
  { destruct (worker_thread a0) as [j|] eqn:Hwt.
    - destruct (wait_comm fuel j _ _ Hw) as (W1 & W2 & W3 & W4).
      pose proof (wait_some_finished fuel j _ _ Hw) as Wf.
      assert (Q : comm_worker (quit j a0) = comm_worker a0
                  /\ worker_thread (quit j a0) = worker_thread a0
                  /\ comm_instance (quit j a0) = comm_instance a0).
      { destruct a0; cbn; auto. }
      destruct Q as (Q1 & Q2 & Q3).
      rewrite W1, W2, W3, Q1, Q2, Q3, C0, I0. repeat split; auto.
      + congruence.
      + intros i. rewrite W4.
        destruct (stop_quit_comm i j a0) as (_ & Hc).
        rewrite Hc. apply M0.
      + intros i Hi. assert (i = j) by congruence. subst. exact Wf.
    - inversion Hw; subst. repeat split; auto; try congruence. }
  destruct H2 as (C2 & T2 & I2 & M2 & F2).
  destruct a2 as [hp no rs nr w q ci wt cw lg ui dl]. cbn in *.
  unfold invoke, log, modify, bind, ret in Hd. cbn in Hd.
  destruct ci as [l|]; cbn in Hd.
  - destruct (comm_disconnect (hp l, w)) as [[[] | e] [o' w']]; cbn in Hd;
      inversion Hd; subst; cbn; unfold finished in *; cbn in *;
      repeat split; auto; try congruence.
  - inversion Hd; subst; cbn; unfold finished in *; cbn in *;
      repeat split; auto; try congruence.
Qed.

Lemma finished_stop_quit (i j : nat) (a : app) :
  finished i a = true ->
  finished i (stop j a) = true /\ finished i (quit i a) = true.
Proof.
  destruct a as [hp no rs nr w q ci wt cw lg ui dl].
  unfold finished, stop, quit. cbn. unfold upd. rewrite Nat.eqb_refl.
  destruct (Nat.eqb i j) eqn:Hij; cbn.
  - apply Nat.eqb_eq in Hij. subst. destruct (pc (rs j)); auto.
  - destruct (pc (rs i)); auto.
Qed.

(** X13. [disconnect_device] is safe to repeat: on a fresh window, and
    after any call that returned normally, every further call returns
    normally for every bound on the wait, makes no library call, changes no
    transport object and only adds the line ["Disconnected."] to the log. *)
Theorem disconnect_device_idempotent (a : app) :
  (forall d, idle (init_app d))
  /\ (forall fuel a1, disconnect_device fuel a = Some (Ok tt, a1) -> idle a1)
  /\ (idle a ->
      forall fuel, exists a2,
        disconnect_device fuel a = Some (Ok tt, a2)
        /\ idle a2
        /\ wld a2 = wld a
        /\ (forall l, heap a2 l = heap a l)
        /\ log_display a2 = log_display a ++ [lit "Disconnected."]).
Proof.
  split; [|split].
  - intros d. split; [reflexivity | intros i Hi; discriminate Hi].
  - intros fuel a1 Hd.
    destruct (disconnect_device_spec fuel a (Ok tt) a1 Hd)
      as (C & T & F & _ & Hok & _).
    destruct (Hok eq_refl) as [Hci _]. split; [exact Hci|].
    intros i Hi. apply F. congruence.
  - intros [Hci Hf] fuel. unfold disconnect_device.
    set (a0 := match comm_worker a with Some i => stop i a | None => a end).
    assert (H0 : worker_thread a0 = worker_thread a
                 /\ comm_instance a0 = None
                 /\ wld a0 = wld a /\ heap a0 = heap a
                 /\ log_display a0 = log_display a
                 /\ forall i, finished i a = true -> finished i a0 = true).
    { unfold a0. destruct (comm_worker a) as [j|]; [|auto 10].
      repeat split; try (destruct a; cbn in *; auto; fail).
      intros i Hi. now apply finished_stop_quit. }
    destruct H0 as (T0 & I0 & W0 & P0 & L0 & F0).
    assert (Hw : exists a2,
               match worker_thread a0 with
               | Some i => wait fuel i (quit i a0)
               | None => Some a0
               end = Some a2
               /\ worker_thread a2 = worker_thread a
               /\ comm_instance a2 = None
               /\ wld a2 = wld a /\ heap a2 = heap a
               /\ log_display a2 = log_display a
               /\ forall i, worker_thread a = Some i -> finished i a2 = true).
    { destruct (worker_thread a0) as [i|] eqn:Hwt.
      - assert (Hfi : finished i (quit i a0) = true).
        { apply finished_stop_quit with (j := i). apply F0, Hf. congruence. }
        exists (quit i a0). rewrite (wait_finished fuel i _ Hfi).
        repeat split; try (destruct a0; cbn in *; congruence).
      - exists a0. repeat split; auto; try congruence; intros i Hi; congruence. }
    destruct Hw as (a2 & Hw & T2 & I2 & W2 & P2 & L2 & F2). rewrite Hw.
    destruct a2 as [hp no rs nr w q ci wt cw lg ui dl]. cbn in *. subst.
    unfold log, modify, bind, ret. cbn.
    eexists. split; [reflexivity|]. unfold idle, finished in *. cbn.
    repeat split; auto.
Qed.

(** What [connect_device] leaves of the session's three references. *)
Lemma connect_device_wires (f : form) (a : app) :
  let a' := snd (connect_device f a) in
  (comm_instance a' = None
   /\ comm_worker a' = comm_worker a /\ worker_thread a' = worker_thread a)
  \/ (exists l i,
         comm_instance a' = Some l /\ comm_worker a' = Some i
         /\ worker_thread a' = Some i /\ comm (receivers a' i) = l).
Proof.
  destruct a as [hp no rs nr w q ci wt cw lg ui dl].
  connect_cases f;
    unfold connect_device, build, new_comm_instance, invoke, start_worker,
      log, message_box, try_except, bind, ret, modify; cbn;
    rewrite ?upd_same; unfold_methods; cbn;
    repeat (rewrite ?all_exceptions; cbn; case_step);
    rewrite ?all_exceptions; cbn; rewrite ?upd_same;
    first [ left; repeat split; reflexivity
          | right; do 2 eexists; rewrite ?upd_same; repeat split; reflexivity ].
Qed.

(** A log line changes nothing of the session. *)
Lemma log_session (msg : pystr) (a : app) :
  fst (log msg a) = Ok tt
  /\ comm_instance (snd (log msg a)) = comm_instance a
  /\ comm_worker (snd (log msg a)) = comm_worker a
  /\ worker_thread (snd (log msg a)) = worker_thread a
  /\ receivers (snd (log msg a)) = receivers a.
Proof. destruct a. unfold log, modify. cbn. auto. Qed.

(** Nor does the body of the send commands. *)
Lemma send_command_session (command prefix : pystr) (a : app) :
  let m : M app unit :=
    fun a =>
      if cannot_send a then log (lit "Not connected. Cannot send data.") a
      else
        try_except
          (match comm_instance a with
           | Some l => invoke l (comm_send_data command)
           | None => (fun a0 => (Raise (mkExc AttributeError (lit "'NoneType' object has no attribute 'send_data'")), a0))
           end ;;
           log (lit "Sent: " ++ strip command))
          [Exception]
          (fun e => log (prefix ++ exc_msg e)) a in
  comm_instance (snd (m a)) = comm_instance a
  /\ comm_worker (snd (m a)) = comm_worker a
  /\ worker_thread (snd (m a)) = worker_thread a
  /\ receivers (snd (m a)) = receivers a.
Proof.
  destruct a as [hp no rs nr w q ci wt cw lg ui dl].
  cbv zeta. unfold cannot_send. cbn [comm_instance heap].
  destruct ci as [l|];
    [ destruct (comm_is_connected (hp l)) eqn:Hc; cbn [negb] | ];
    try (unfold log, modify; cbn; auto; fail).
  unfold try_except, bind, invoke, log, modify. cbn.
  destruct (comm_send_data command (hp l, w)) as [[[] | e] [o' w']];
    cbn; rewrite ?all_exceptions; cbn; auto.
Qed.

(** [wired] depends only on the three references and on the transport each
    worker is bound to. *)
Lemma wired_transfer (a a' : app) :
  wired a ->
  comm_worker a' = comm_worker a ->
  worker_thread a' = worker_thread a ->
  (comm_instance a' = comm_instance a \/ comm_instance a' = None) ->
  (forall i, comm (receivers a' i) = comm (receivers a i)) ->
  wired a'.
Proof.
  intros [Hw Hb] Hcw Hwt Hci Hr. split; [congruence|].
  intros l Hl. destruct Hci as [Hci | Hci]; [|congruence].
  rewrite Hci in Hl. destruct (Hb l Hl) as (i & Hi & Hc).
  exists i. split; [congruence|]. now rewrite Hr.
Qed.

(** X14. The worker reads from the active transport, and from no other:
    whenever [comm_instance] is set, [comm_worker] and [worker_thread] name
    one worker and that worker is bound to the transport [comm_instance]
    names. This holds when the window is created and every method of the
    window and every iteration of a worker keeps it. *)
Theorem session_stays_wired (a : app) :
  (forall d, wired (init_app d))
  /\ (wired a ->
  (forall f, wired (snd (connect_device f a)))
  /\ (forall j, wired (run_step j a))
  /\ (forall fuel r a', disconnect_device fuel a = Some (r, a') -> wired a')
  /\ (forall fuel msg r a', handle_comm_error fuel msg a = Some (r, a') -> wired a')
  /\ (forall fuel f r a', toggle_connection fuel f a = Some (r, a') -> wired a')
  /\ (forall fuel r a', deliver fuel a = Some (r, a') -> wired a')
  /\ (forall kp ki kd, wired (snd (send_pid_data kp ki kd a)))
  /\ (forall data, wired (snd (send_custom_data data a)))).
Proof.
  split; [intros d; split; [reflexivity | intros l Hl; discriminate Hl]|].
  assert (Hconn : forall a0 f, wired a0 -> wired (snd (connect_device f a0))).
  { intros a0 f [Hw _].
    destruct (connect_device_wires f a0) as [(Hci & Hcw & Hwt) | (l & i & Hci & Hcw & Hwt & Hc)];
      cbv zeta in *; (split; [congruence|]).
    - intros l0 Hl. rewrite Hci in Hl. discriminate Hl.
    - intros l' Hl. exists i. split; [exact Hcw | congruence]. }
  assert (Hdisc : forall a0 fuel r a', wired a0 ->
                    disconnect_device fuel a0 = Some (r, a') -> wired a').
  { intros a0 fuel r a' Hw Hd.
    destruct (disconnect_device_spec fuel a0 r a' Hd) as (C & T & _ & R & Hok & Hno).
    apply (wired_transfer a0); auto.
    destruct r as [[] | e].
    - right. now apply Hok.
    - left. now apply Hno. }
  assert (Hlog : forall a0 msg, wired a0 -> wired (snd (log msg a0))).
  { intros a0 msg Hw.
    destruct (log_session msg a0) as (_ & L1 & L2 & L3 & L4).
    apply (wired_transfer a0); auto. }
  assert (Herr : forall a0 fuel msg r a', wired a0 ->
                   handle_comm_error fuel msg a0 = Some (r, a') -> wired a').
  { intros a0 fuel msg r a' Hw He. unfold handle_comm_error in He.
    pose proof (Hlog a0 (lit "ERROR: " ++ msg) Hw) as Hw1.
    destruct (log (lit "ERROR: " ++ msg) a0) as [[[] | e] a1]; cbn in Hw1.
    - destruct (disconnect_device fuel a1) as [[[[] | e] a2]|] eqn:Hd;
        [ | | discriminate].
      + pose proof (Hdisc a1 fuel _ _ Hw1 Hd) as Hw2.
        inversion He; subst.
        apply (wired_transfer a2); auto;
          destruct a2; unfold message_box, modify; cbn; auto.
      + inversion He; subst. exact (Hdisc a1 fuel _ _ Hw1 Hd).
    - inversion He; subst. exact Hw1. }
  intros Hw.
  split; [intros f; now apply Hconn|].
  split.
  { intros j. destruct (run_step_frame a j) as (C & T & I & _).
    apply (wired_transfer a); auto. apply run_step_comm. }
  split; [intros fuel r a' Hd; exact (Hdisc a fuel r a' Hw Hd)|].
  split; [intros fuel msg r a' He; exact (Herr a fuel msg r a' Hw He)|].
  split.
  { intros fuel f r a' Ht. unfold toggle_connection in Ht.
    destruct (comm_instance a) as [l|];
      [destruct (comm_is_connected (heap a l))|];
      try (assert (Hs : connect_device f a = (r, a')) by congruence;
           pose proof (Hconn a f Hw) as Hc;
           rewrite Hs in Hc; exact Hc).
    exact (Hdisc a fuel r a' Hw Ht). }
  split.
  { intros fuel r a' Hd. unfold deliver in Hd.
    assert (Hq : forall q, wired (set_queue q a)).
    { intros q. apply (wired_transfer a); auto; destruct a; cbn; auto. }
    destruct (queue a) as [|[text | text] q].
    - inversion Hd; subst. exact Hw.
    - assert (Hs : log text (set_queue q a) = (r, a')) by congruence.
      pose proof (Hlog _ text (Hq q)) as Hl.
      rewrite Hs in Hl. exact Hl.
    - exact (Herr _ fuel text r a' (Hq q) Hd). }
  split.
  - intros kp ki kd.
    destruct (send_command_session
                (lit "PID," ++ kp ++ lit "," ++ ki ++ lit "," ++ kd ++ [10%N])
                (lit "Error sending PID data: ") a) as (S1 & S2 & S3 & S4).
    apply (wired_transfer a); auto. intros i. cbv zeta in S4.
    change (receivers (snd (send_pid_data kp ki kd a)) = receivers a) in S4.
    now rewrite S4.
  - intros data.
    destruct (send_command_session (data ++ [10%N])
                (lit "Error sending custom data: ") a) as (S1 & S2 & S3 & S4).
    apply (wired_transfer a); auto. intros i. cbv zeta in S4.
    change (receivers (snd (send_custom_data data a)) = receivers a) in S4.
    now rewrite S4.
Qed.

End Further.

(* ===================================================================== *)
(** ** On the loopback endpoint *)
(* ===================================================================== *)

(** X15. On a loopback serial line with nothing pending, any encodable
    line without a line feed, sent with a line feed appended, is returned by
    the next [receive_data()] with surrounding whitespace removed, and
    unchanged when it has none; the line is consumed. *)
Theorem uart_loopback_line_round_trip
        (o : UARTCommunication.t) (h : handle) (d : Loopback.state)
        (tr : list event) (line : pystr) (bs : bytes) :
  UARTCommunication.serial_conn o = Some (mkSerial h true) ->
  Loopback.script d = [] ->
  Loopback.rx d = [] ->
  utf8_encode line = Some bs ->
  ~ In 10%N line ->
  let sent := @UARTCommunication.send_data Loopback.env (line ++ [10%N])
                (o, @mkWorld Loopback.env d tr) in
  let received := UARTCommunication.receive_data None (snd sent) in
  fst sent = Ok tt
  /\ fst received = Ok (VStr (strip line))
  /\ Loopback.rx (device (snd (snd received))) = []
  /\ (trimmed line = true -> fst received = Ok (VStr line)).
Proof.
  intros Hconn Hscript Hrx He Hn. cbv zeta.
  destruct d as [sc rx fr ec nh]. cbn in Hscript, Hrx. subst sc rx.
  destruct o as [port baud tmo conn]. cbn in Hconn. subst conn.
  assert (Henc : utf8_encode (line ++ [10%N]) = Some (bs ++ [x0a])).
  { rewrite utf8_encode_app, He. reflexivity. }
  unfold_bodies. cbn. rewrite Henc. cbn.
  rewrite (split_line_app bs []) by (eapply encoded_without_newline; eauto).
  cbn. rewrite (utf8_decode_encoded line bs [x0a] He).
  change (utf8_decode_ignore [x0a]) with [10%N].
  rewrite strip_newline. repeat split; try reflexivity.
  intros Ht. now rewrite strip_of_trimmed.
Qed.

(** X16. On a loopback CAN bus with no frame pending, any encodable string
    sent is returned unchanged by the next [receive_data()], and the
    [receive_data()] after that returns [None]. *)
Theorem can_loopback_round_trip
        (o : CANCommunication.t) (h : handle) (d : Loopback.state)
        (tr : list event) (s : pystr) (bs : bytes) (id : Z) (t : Q) :
  CANCommunication.bus o = Some h ->
  Loopback.script d = [] ->
  Loopback.frames d = [] ->
  utf8_encode s = Some bs ->
  let sent := @CANCommunication.send_data Loopback.env s id
                (o, @mkWorld Loopback.env d tr) in
  let received := CANCommunication.receive_data t (snd sent) in
  fst sent = Ok tt
  /\ fst received = Ok (VStr s)
  /\ Loopback.frames (device (snd (snd received))) = []
  /\ fst (CANCommunication.receive_data t (snd received)) = Ok VNone.
Proof.
  intros Hbus Hscript Hfr He. cbv zeta.
  destruct d as [sc rx fr ec nh]. cbn in Hscript, Hfr. subst sc fr.
  destruct o as [chan rate iface b]. cbn in Hbus. subst b.
  unfold_bodies. cbn. rewrite He. cbn.
  pose proof (utf8_decode_encoded s bs [] He) as Hrt.
  rewrite app_nil_r in Hrt. change (utf8_decode_ignore []) with (@nil N) in Hrt.
  rewrite app_nil_r in Hrt. rewrite Hrt. repeat split; reflexivity.
Qed.

(** X17. Against a device that echoes what was written, a list written to
    a register in one block write is what a block read of the same length
    from that register returns. *)
Theorem i2c_register_echo
        (o : I2CCommunication.t) (h : handle) (d : Loopback.state)
        (tr : list event) (vals : list Z) (reg : Z) :
  I2CCommunication.is_connected o = true ->
  I2CCommunication.bus o = Some h ->
  Loopback.script d = [] ->
  let sent := @I2CCommunication.send_data Loopback.env (DList vals) (Some reg)
                (o, @mkWorld Loopback.env d tr) in
  let received :=
    I2CCommunication.receive_data (Z.of_nat (length vals)) (Some reg) (snd sent) in
  fst sent = Ok tt
  /\ fst received = Ok (VList vals)
  /\ writes (snd (snd sent)) = writes (@mkWorld Loopback.env d tr) ++ [vals].
Proof.
  intros Hc Hbus Hscript. cbv zeta.
  destruct d as [sc rx fr ec nh]. cbn in Hscript. subst sc.
  destruct o as [bn da b cn]. cbn in Hbus, Hc. subst b cn.
  unfold_bodies. cbn.
  rewrite Nat2Z.id, firstn_all. repeat split; try reflexivity.
  unfold writes. cbn. rewrite flat_map_app. reflexivity.
Qed.

(* ===================================================================== *)
(** ** Runs on the test endpoint *)
(* ===================================================================== *)

Import Bench.

(** C9. Sent through a connected UART transport to a loopback endpoint, the
    command ["PID,1.0,0.1,0.01\n"] leaves in one write as its 17 bytes, and
    the [receive_data()] that follows returns ["PID,1.0,0.1,0.01"]: the same
    characters without the line terminator. *)
Theorem uart_loopback_round_trip (port : pystr) (baudrate : Z) (timeout : Q) :
  let connected :=
    after UARTCommunication.connect
          (UARTCommunication.init port baudrate timeout, Loopback.start []) in
  let sent := UARTCommunication.send_data pid_line connected in
  cond (UARTCommunication.is_connected (fst connected)) = true
  /\ fst sent = Ok tt
  /\ option_map ints (utf8_encode pid_line) = Some (map Z.of_N pid_line)
  /\ writes (snd (snd sent)) = [map Z.of_N pid_line]
  /\ fst (UARTCommunication.receive_data None (snd sent))
     = Ok (VStr (lit "PID,1.0,0.1,0.01")).
Proof.
  cbv zeta. repeat split; reflexivity.
Qed.

(** *** Concrete instances of the properties *)

Lemma disconnected_send_receive_fail_witness :
  comm_is_connected (UART uart0) = false
  /\ (forall data,
         fails_unconnected (E := E) (UARTCommunication.send_data data) uart0
                           (Loopback.start []))
  /\ (forall n,
         fails_unconnected (E := E) (UARTCommunication.receive_data n) uart0
                           (Loopback.start [])).
Proof.
  split; [reflexivity|].
  exact (@disconnected_send_receive_fail E (UART uart0) (Loopback.start []) eq_refl).
Defined.

Lemma connect_twice_opens_once_witness :
  let s1 := @comm_connect E (UART uart0, Loopback.start []) in
  let s2 := @comm_connect E (snd s1) in
  consistent (UART uart0)
  /\ count is_open_event (snd (snd s2)) <= 1
  /\ (comm_is_connected (fst (snd s1)) = true ->
      fst s2 = Ok tt /\ fst (snd s2) = fst (snd s1) /\ snd (snd s2) = snd (snd s1)).
Proof.
  assert (Hc : consistent (UART uart0)) by (intros Hf; discriminate Hf).
  split; [exact Hc|].
  pose proof (@connect_twice_opens_once E (UART uart0) (Loopback.start []) Hc) as T.
  cbv zeta. split; [exact (proj1 T) | exact (proj2 (proj2 T))].
Defined.

Lemma i2c_failed_probe_blocks_reconnect_witness :
  let w := Loopback.start [None; Some bus_timeout] in
  let s1 := @I2CCommunication.connect E (i2c0, w) in
  existsb (isinstance bus_timeout) [FileNotFoundError; IOError] = true
  /\ I2CCommunication.bus (fst (snd s1)) = Some 3
  /\ I2CCommunication.is_connected (fst (snd s1)) = false
  /\ @I2CCommunication.connect E (snd s1) = (Ok tt, snd s1)
  /\ (forall ks, @do_calls E ks (snd s1) = snd s1).
Proof.
  pose proof (@i2c_failed_probe_blocks_reconnect E i2c0
                (Loopback.start [None; Some bus_timeout]) 3 bus_timeout
                _ _ eq_refl eq_refl eq_refl eq_refl) as T.
  cbv zeta. split; [reflexivity|].
  destruct T as (_ & T2 & T3 & T4 & T5 & _). auto.
Defined.

Lemma disconnect_releases_handle_witness :
  let s1 := @comm_disconnect E (UART (fst uart_connected), snd uart_connected) in
  fst s1 = Ok tt
  /\ comm_is_connected (fst (snd s1)) = false
  /\ holds_handle (fst (snd s1)) = false
  /\ (exists c', @disconnect_times E 3 (UART uart0, Loopback.start [])
                 = (Ok tt, (c', Loopback.start []))
                 /\ comm_is_connected c' = false /\ holds_handle c' = false).
Proof.
  pose proof (@disconnect_releases_handle E (UART (fst uart_connected))
                (snd uart_connected)) as T.
  pose proof (@disconnect_releases_handle E (UART uart0) (Loopback.start [])) as T0.
  cbv zeta. split; [reflexivity|].
  destruct (proj1 T _ _ eq_refl) as [Hc Hh].
  split; [exact Hc|]. split; [exact Hh|].
  exact (proj1 (proj2 T0) eq_refl 2).
Defined.

Lemma send_writes_payload_witness :
  comm_is_connected (UART (fst uart_connected)) = true
  /\ holds_handle (UART (fst uart_connected)) = true
  /\ utf8_encode (lit "AB") = Some [x41; x42]
  /\ writes (snd (snd (@UARTCommunication.send_data E (lit "AB") uart_connected)))
     = writes (snd uart_connected) ++ [ints [x41; x42]].
Proof.
  repeat (split; [reflexivity|]).
  exact (@send_writes_payload E (UART (fst uart_connected)) (snd uart_connected)
           (lit "AB") [x41; x42] eq_refl eq_refl eq_refl).
Defined.



Lemma stop_ends_loop_after_current_iteration_witness :
  let a := uart_receiving in
  pc (receivers a 0) <> PStart
  /\ pc (receivers (run_steps 4 0 (stop 0 a)) 0) = PDone
  /\ (forall n, length (queue (run_steps n 0 (stop 0 a))) <= S (length (queue a))).
Proof.
  cbv zeta.
  assert (Hp : pc (receivers uart_receiving 0) <> PStart) by discriminate.
  pose proof (@stop_ends_loop_after_current_iteration E uart_receiving 0 Hp)
    as (T1 & T2 & _).
  split; [exact Hp|]. split; [exact T1|]. intros n. exact (proj2 (T2 n)).
Defined.

Lemma receive_error_ends_loop_and_forces_disconnect_witness :
  let a := uart_receiving_fault in
  let msg := lit "Data reception error: " ++ exc_msg line_fault in
  pc (receivers a 0) = PReceive
  /\ fst (comm_receive_data (heap a 0, wld a)) = Raise line_fault
  /\ queue (run_step 0 a) = queue a ++ [error_occurred msg]
  /\ pc (receivers (run_step 0 a) 0) = PDone
  /\ exists r a2,
      handle_comm_error 0 msg (run_step 0 a) = Some (r, a2)
      /\ _is_running (receivers a2 0) = false
      /\ finished 0 a2 = true.
Proof.
  cbv zeta.
  pose proof (@receive_error_ends_loop_and_forces_disconnect E
                uart_receiving_fault 0 0 line_fault 0
                eq_refl eq_refl eq_refl eq_refl eq_refl eq_refl)
    as (T1 & T2 & _ & r & a2 & T4 & T5 & T6 & _).
  split; [reflexivity|]. split; [reflexivity|].
  split; [exact T1|]. split; [exact T2|].
  exists r, a2. auto.
Defined.

(** *** Where the code departs from the specification *)

(** C2. A connected I2C transport asked to send ["AB"] makes one
    [write_byte] call with the first byte only; the two bytes of the UTF-8
    encoding are not written. *)
Lemma i2c_send_writes_first_byte_only :
  let s := i2c_connected [] in
  comm_is_connected (fst s) = true
  /\ utf8_encode (lit "AB") = Some [x41; x42]
  /\ writes (snd (after (comm_send_data (lit "AB")) s)) = [[65%Z]]
  /\ writes (snd (after (comm_send_data (lit "AB")) s))
     <> writes (snd s) ++ [ints [x41; x42]].
Proof.
  cbv zeta. repeat (split; [vm_compute; reflexivity|]). vm_compute. discriminate.
Qed.

(** C3. An I2C [connect()] whose bus opens and whose probe fails raises
    [ConnectionError] and leaves the transport holding the bus handle, no
    release call having been made; and a UART [send_data] that times out
    leaves the transport connected with its handle. *)
Lemma failure_keeps_handle :
  (let s := @comm_connect E (I2C i2c0, Loopback.start [None; Some bus_timeout]) in
   (exists msg, fst s = Raise (mkExc ConnectionError msg))
   /\ holds_handle (fst (snd s)) = true
   /\ I2CCommunication.bus i2c0 = None
   /\ count is_release_call (snd (snd s)) = 0)
  /\ (let w := @mkWorld E (Loopback.fresh [Some (mkExc SerialTimeoutException (lit "Write timeout"))])
                          (trace (snd uart_connected)) in
      let s := @comm_send_data E (lit "AB") (UART (fst uart_connected), w) in
      (exists msg, fst s = Raise (mkExc TimeoutError msg))
      /\ comm_is_connected (fst (snd s)) = true
      /\ holds_handle (fst (snd s)) = true).
Proof.
  cbv zeta.
  split; (split; [eexists; vm_compute; reflexivity|]);
    repeat split; vm_compute; reflexivity.
Qed.



(** C7. With a [receive_data()] call in progress when [stop()] returns, the
    line that arrives is still emitted as a [data_received] signal. *)
Lemma data_emitted_after_stop :
  let a := uart_line_arrived in
  pc (receivers a 0) = PReceive
  /\ _is_running (receivers (stop 0 a) 0) = false
  /\ queue (stop 0 a) = []
  /\ queue (run_steps 2 0 (stop 0 a)) = [data_received (lit "hi")]
  /\ queue (run_steps 2 0 (stop 0 a)) <> queue (stop 0 a).
Proof.
  cbv zeta. do 4 (split; [vm_compute; reflexivity|]). vm_compute. discriminate.
Qed.

(** C8. The line fails in [receive_data()] and the port then fails to close:
    [handle_comm_error] ends with the exception of [close()], and the
    transport is still connected and holds its handle, [comm_instance] still
    names it, the buttons still show the connected state and no message box
    was shown. *)
Lemma failed_release_keeps_session_connected :
  let a := uart_receiving_release_fault in
  let msg := lit "Data reception error: " ++ exc_msg line_fault in
  let a1 := run_step 0 a in
  pc (receivers a 0) = PReceive
  /\ comm_instance a = Some 0
  /\ fst (comm_receive_data (heap a 0, wld a)) = Raise line_fault
  /\ queue a1 = [error_occurred msg]
  /\ forall fuel,
      exists a2,
        handle_comm_error fuel msg a1 = Some (Raise release_fault, a2)
        /\ comm_is_connected (heap a2 0) = true
        /\ holds_handle (heap a2 0) = true
        /\ comm_instance a2 = Some 0
        /\ ui_connected a2 = true
        /\ dialogs a2 = [].
Proof.
  cbv zeta. do 4 (split; [vm_compute; reflexivity|]).
  intros fuel. eexists.
  split; [destruct fuel; vm_compute; reflexivity|].
  repeat split; vm_compute; reflexivity.
Qed.

(** A [stop()] that comes before [run] has begun is undone by the first
    statement of [run]: the loop runs on, and [disconnect_device] is still
    waiting for the thread after a thousand of its steps. *)
Lemma stop_before_run_is_lost :
  let a := uart_started in
  pc (receivers a 0) = PStart
  /\ _is_running (receivers (stop 0 a) 0) = false
  /\ _is_running (receivers (run_step 0 (stop 0 a)) 0) = true
  /\ disconnect_device 1000 a = None.
Proof.
  cbv zeta. repeat split; vm_compute; reflexivity.
Qed.

(** ** Runs of the further properties on the test endpoint *)

Lemma connect_success_state_witness :
  let s := @comm_connect E (UART uart0, Loopback.start []) in
  holds_handle (UART uart0) = false
  /\ fst s = Ok tt
  /\ comm_is_connected (fst (snd s)) = true
  /\ holds_handle (fst (snd s)) = true
  /\ count is_open_event (snd (snd s)) = 1.
Proof.
  cbv zeta.
  pose proof (@connect_success_state E (UART uart0) (Loopback.start []) eq_refl eq_refl)
    as (T1 & T2 & T3 & _).
  repeat (split; [first [reflexivity | assumption]|]). exact T3.
Defined.

Lemma connect_failure_class_witness :
  let s := @comm_connect E (UART uart0, Loopback.start [Some port_missing]) in
  holds_handle (UART uart0) = false
  /\ exists e, fst s = Raise e
               /\ (exc_cls e = ConnectionError \/ isinstance e SerialException = false).
Proof.
  cbv zeta. split; [reflexivity|]. eexists. split; [reflexivity|].
  exact (@connect_failure_class E (UART uart0) (Loopback.start [Some port_missing]) _
           eq_refl eq_refl).
Defined.

Lemma send_translates_library_errors_witness :
  let c := UART (fst uart_write_times_out) in
  let s := @comm_send_data E pid_line (c, snd uart_write_times_out) in
  comm_is_connected c = true
  /\ exists e, fst s = Raise e
               /\ isinstance e SerialTimeoutException = false
               /\ count is_write_call (snd (snd s))
                  <= S (count is_write_call (snd uart_write_times_out)).
Proof.
  cbv zeta. split; [reflexivity|]. eexists. split; [reflexivity|].
  exact (@send_translates_library_errors E (UART (fst uart_write_times_out))
           (snd uart_write_times_out) pid_line _ eq_refl eq_refl).
Defined.

Lemma i2c_receive_reads_n_bytes_witness :
  let o := fst i2c_bus_connected in
  let w := snd i2c_bus_connected in
  I2CCommunication.is_connected o = true
  /\ I2CCommunication.bus o = Some 3
  /\ fst (I2CCommunication.receive_data 2 None (o, w)) = Ok (VList [0; 0]%Z)
  /\ (exists l, VList [0; 0]%Z = VList l /\ length l = 2
                /\ length (trace (snd (snd (I2CCommunication.receive_data 2 None (o, w)))))
                   = length (trace w) + 2)
  /\ I2CCommunication.receive_data 0 None (o, w) = (Ok (VList []), (o, w)).
Proof.
  cbv zeta.
  pose proof (@i2c_receive_reads_n_bytes E (fst i2c_bus_connected)
                (snd i2c_bus_connected) 3 2%Z eq_refl eq_refl) as [T1 _].
  pose proof (@i2c_receive_reads_n_bytes E (fst i2c_bus_connected)
                (snd i2c_bus_connected) 3 0%Z eq_refl eq_refl) as [_ T2].
  repeat (split; [first [reflexivity | exact (T1 _ eq_refl)]|]).
  apply T2. lia.
Defined.

Lemma unencodable_payload_is_not_sent_witness :
  let c := UART (fst uart_connected) in
  let data := lit "PID," ++ [0xD800%N] in
  comm_is_connected c = true
  /\ Exists (fun c => is_surrogate c = true \/ (0x10FFFF < c)%N) data
  /\ (exists msg, fst (@comm_send_data E data (c, snd uart_connected))
                  = Raise (mkExc UnicodeEncodeError msg))
  /\ snd (@comm_send_data E data (c, snd uart_connected)) = (c, snd uart_connected).
Proof.
  cbv zeta.
  assert (Hx : Exists (fun c => is_surrogate c = true \/ (0x10FFFF < c)%N)
                      (lit "PID," ++ [0xD800%N])).
  { apply Exists_exists. exists 0xD800%N. split; [|left; reflexivity].
    apply in_or_app. right. left. reflexivity. }
  split; [reflexivity|]. split; [exact Hx|].
  exact (@unencodable_payload_is_not_sent E (UART (fst uart_connected))
           (snd uart_connected) _ eq_refl Hx).
Defined.

Lemma uart_loopback_line_round_trip_witness :
  let o := fst uart_connected in
  let w := snd uart_connected in
  let sent := @UARTCommunication.send_data Loopback.env (params_line ++ [10%N]) (o, w) in
  let received := UARTCommunication.receive_data None (snd sent) in
  UARTCommunication.serial_conn o = Some (mkSerial 3 true)
  /\ Loopback.script (device w) = []
  /\ Loopback.rx (device w) = []
  /\ ~ In 10%N params_line
  /\ trimmed params_line = true
  /\ fst sent = Ok tt
  /\ fst received = Ok (VStr params_line)
  /\ Loopback.rx (device (snd (snd received))) = [].
Proof.
  cbv zeta.
  assert (Hn : ~ In 10%N params_line).
  { intros H. vm_compute in H.
    repeat (destruct H as [H | H]; [discriminate H|]). exact H. }
  pose proof (@uart_loopback_line_round_trip (fst uart_connected) 3
                (device (snd uart_connected)) (trace (snd uart_connected))
                params_line _ eq_refl eq_refl eq_refl eq_refl Hn)
    as (T1 & _ & T3 & T4).
  pose proof (T4 eq_refl) as T5.
  repeat (split; [first [reflexivity | assumption]|]). exact T3.
Defined.

Lemma can_loopback_round_trip_witness :
  let o := fst can_connected in
  let w := snd can_connected in
  let sent := @CANCommunication.send_data Loopback.env (lit "PID,1.0") 0x123 (o, w) in
  let received := CANCommunication.receive_data 1%Q (snd sent) in
  CANCommunication.bus o = Some 3
  /\ Loopback.script (device w) = []
  /\ Loopback.frames (device w) = []
  /\ fst sent = Ok tt
  /\ fst received = Ok (VStr (lit "PID,1.0"))
  /\ fst (CANCommunication.receive_data 1%Q (snd received)) = Ok VNone.
Proof.
  cbv zeta.
  pose proof (@can_loopback_round_trip (fst can_connected) 3
                (device (snd can_connected)) (trace (snd can_connected))
                (lit "PID,1.0") _ 0x123%Z 1%Q eq_refl eq_refl eq_refl eq_refl)
    as (T1 & T2 & _ & T4).
  repeat (split; [first [reflexivity | assumption]|]). assumption.
Defined.

Lemma i2c_register_echo_witness :
  let o := fst i2c_bus_connected in
  let w := snd i2c_bus_connected in
  let sent := @I2CCommunication.send_data Loopback.env (DList [1; 2; 3]%Z) (Some 0x10%Z) (o, w) in
  let received := I2CCommunication.receive_data 3 (Some 0x10%Z) (snd sent) in
  I2CCommunication.is_connected o = true
  /\ I2CCommunication.bus o = Some 3
  /\ Loopback.script (device w) = []
  /\ fst sent = Ok tt
  /\ fst received = Ok (VList [1; 2; 3]%Z)
  /\ writes (snd (snd sent)) = writes w ++ [[1; 2; 3]%Z].
Proof.
  cbv zeta.
  pose proof (@i2c_register_echo (fst i2c_bus_connected) 3
                (device (snd i2c_bus_connected)) (trace (snd i2c_bus_connected))
                [1; 2; 3]%Z 0x10%Z eq_refl eq_refl eq_refl)
    as (T1 & T2 & T3).
  repeat (split; [first [reflexivity | assumption]|]). assumption.
Defined.

Lemma disconnect_device_returns_witness :
  let a := uart_receiving in
  comm_worker a = Some 0
  /\ worker_thread a = Some 0
  /\ pc (receivers a 0) <> PStart
  /\ exists r a',
      disconnect_device 4 a = Some (r, a')
      /\ finished 0 a' = true
      /\ _is_running (receivers a' 0) = false.
Proof.
  cbv zeta.
  assert (Hp : pc (receivers uart_receiving 0) <> PStart) by (intros H; discriminate H).
  repeat (split; [reflexivity|]). split; [exact Hp|].
  exact (@disconnect_device_returns E uart_receiving 0 4 eq_refl eq_refl Hp (le_n 4)).
Defined.

Lemma worker_emits_result_once_witness :
  let a := uart_line_arrived in
  pc (receivers a 0) = PReceive
  /\ fst (comm_receive_data (heap a (comm (receivers a 0)), wld a)) = Ok (VStr (lit "hi"))
  /\ truthy (VStr (lit "hi")) = true
  /\ queue (run_steps 3 0 a) = queue a ++ [data_received (lit "hi")]
  /\ pc (receivers (run_steps 3 0 a) 0) = PTest.
Proof.
  cbv zeta.
  pose proof (@worker_emits_result_once E uart_line_arrived 0 (VStr (lit "hi")) _ _
                eq_refl eq_refl eq_refl) as (T1 & T2 & _).
  repeat (split; [first [reflexivity | assumption]|]). exact T2.
Defined.
